(** * whisperlive-runpod: the long transcription test client

    A shallow embedding of [test-long-transcription.py]: the audio feeder
    ([sender]), the result collector ([receiver]), the session
    ([run_transcription]) and the report writer ([main]), with the
    properties the specification states about them.

    Conventions of the embedding.
    - Python [int] is [Z]; [//] and [%] are [Z.div] and [Z.modulo] (both
      round towards minus infinity, as Python does), with the
      [ZeroDivisionError] of a zero divisor written out.
    - Python [str] is [string]; a character is a code point below 256.
    - Python [float] is kept abstract (class [PyFloat]): the client only
      converts, divides and formats floats.
    - An exception is a value of [exn]; code that may raise returns a
      [result].
    - [sender] and [receiver] are two cooperatively scheduled tasks.  Each is
      modelled with its own event log; what one task sees of the other (the
      [receive_done] latch) and of the network is an explicit input. *)

From Stdlib Require Import Ascii String.
From Stdlib Require QArith_base.
From stdpp Require Import base numbers list strings gmap pretty.

Set Warnings "-register-all".

Local Open Scope Z_scope.
Local Open Scope string_scope.
Local Open Scope list_scope.

(** ** Python runtime *)

Inductive exn :=
| ZeroDivisionError
| TypeError
| AttributeError
| ValueError
| OverflowError
| JSONDecodeError
| ConnectionClosed
| KeyError
| OSError.

Inductive result (A : Type) :=
| Ok (a : A)
| Raise (e : exn).
Arguments Ok {A} a.
Arguments Raise {A} e.

#[global] Instance result_ret : MRet result := fun A a => Ok a.
#[global] Instance result_bind : MBind result := fun A B k r =>
  match r with
  | Ok a => k a
  | Raise e => Raise e
  end.

(** [range(start, stop, step)] for a positive [step]. *)
Definition py_range (start stop step : Z) : list Z :=
  map (fun k : nat => start + Z.of_nat k * step)
      (seq 0 (Z.to_nat ((stop - start + step - 1) / step))).

(** [l[i:j]] for [0 <= i <= j]; a bound beyond the end is clamped. *)
Definition py_slice {A} (l : list A) (i j : Z) : list A :=
  take (Z.to_nat (j - i)) (drop (Z.to_nat i) l).

(** [str(n)] for an [int]. *)
Definition py_str (n : Z) : string := pretty n.

(** The float operations the client uses.  [float_of_int] is [float(n)]
    ([None]: [OverflowError]); [float_of_str] is [float(s)] ([None]:
    [ValueError]); [true_div] is [n / m] on two ints, [fdiv] is [x / y] on
    two floats and [fdiv_int] is [x / n] for a float and an int, all three
    for a nonzero divisor; [fsub] is [x - y]; [is_zero x] is [x == 0];
    [fmt d x] is the format [f"{x:.<d>f}"]. *)
Class PyFloat := {
  float : Type;
  float_of_int : Z -> option float;
  float_of_str : string -> option float;
  true_div : Z -> Z -> float;
  fdiv : float -> float -> float;
  fdiv_int : float -> Z -> float;
  fsub : float -> float -> float;
  is_zero : float -> bool;
  fmt : nat -> float -> string
}.

(** The two facts about float arithmetic the development relies on: zero
    divided by a nonzero int is zero, and the quotient of two positive ints
    below [2^32] (the fields of a WAV header are 32 bits wide) does not
    round to zero. *)
Class PyFloatLaws `{PyFloat} := {
  true_div_zero : forall m : Z, m ≠ 0 -> is_zero (true_div 0 m) = true;
  true_div_nonzero : forall n m : Z,
    0 < n < 2 ^ 32 -> 0 < m < 2 ^ 32 -> is_zero (true_div n m) = false
}.

(** ** JSON values, as [json.loads] returns them *)

Section Json.
Context `{PyFloat}.

Inductive json :=
| JNull
| JBool (b : bool)
| JInt (n : Z)
| JFloat (x : float)
| JStr (s : string)
| JArr (l : list json)
| JObj (o : list (string * json)).

(** [d.get(key)] on the items of a dict (keys are unique in a dict). *)
Fixpoint lookup_key (key : string) (o : list (string * json)) : option json :=
  match o with
  | [] => None
  | (k, v) :: o' => if decide (k = key) then Some v else lookup_key key o'
  end.

End Json.

(** ** Module constants *)

Definition CHUNK_DURATION_MS : Z := 100.
Definition SAMPLE_RATE : Z := 16000.

(** [chunk_samples = int(SAMPLE_RATE * CHUNK_DURATION_MS / 1000)]: the
    quotient is exact. *)
Definition chunk_samples : Z := SAMPLE_RATE * CHUNK_DURATION_MS / 1000.

(** ** The audio feeder *)

(** A sample of [audio_float32]: the 16-bit value [v] stands for the float32
    [v / 32768.0] that is sent; the feeder never looks inside a sample. *)
Definition sample := Z.

Section Feeder.
Context `{PyFloat}.

(** What [ws.send] is called with: the text of [json.dumps(config)], given by
    the value it encodes, or the bytes of a chunk, given by its samples. *)
Inductive payload :=
| PText (j : json)
| PBinary (chunk : list sample).

(** Console lines; the elapsed wall-clock seconds they show are left out. *)
Inductive console_line :=
| LSentConfig (cfg : json)
| LProgress (progress : Z)
| LConnectionClosed (chunks_sent : Z)
| LFinished (chunks_sent : Z)
| LSegment (segment_count : Z) (text60 : string)
| LServerError (message : string)
| LReceiverError (e : exn)
| LConnectionError (e : exn).

Inductive event :=
| SendOk (p : payload)       (* [await ws.send(p)] returned *)
| SendClosed (p : payload)   (* [await ws.send(p)] raised ConnectionClosed *)
| Print (l : console_line)
| Sleep (ms : Z)             (* [await asyncio.sleep(ms / 1000)] *)
| SetDone.                   (* [receive_done.set()] *)

(** The connection as the sending side sees it: [Some k] accepts [k] more
    sends and raises [ConnectionClosed] from then on, [None] stays open. *)
Definition conn := option nat.

Definition conn_open (c : conn) : bool :=
  match c with
  | Some O => false
  | _ => true
  end.

Definition conn_next (c : conn) : conn :=
  match c with
  | Some (S k) => Some k
  | _ => c
  end.

Record sender_result := {
  s_events : list event;
  s_chunks_sent : Z;
  s_raised : option exn
}.

(** The [for] loop of [sender], one offset [i] of the range at a time. *)
Fixpoint sender_loop (audio_float32 : list sample) (total_chunks : Z)
    (offsets : list Z) (c : conn) (chunks_sent : Z) : sender_result :=
  match offsets with
  | [] => {| s_events := []; s_chunks_sent := chunks_sent; s_raised := None |}
  | i :: offsets' =>
    let chunk := py_slice audio_float32 i (i + chunk_samples) in
    if conn_open c then
      let chunks_sent := chunks_sent + 1 in
      if decide (total_chunks = 0) then
        {| s_events := [SendOk (PBinary chunk)];
           s_chunks_sent := chunks_sent;
           s_raised := Some ZeroDivisionError |}
      else
        let progress := chunks_sent * 100 / total_chunks in
        let status :=
          if decide (chunks_sent mod (total_chunks / 10 + 1) = 0)
          then [Print (LProgress progress)] else [] in
        let r := sender_loop audio_float32 total_chunks offsets'
                   (conn_next c) chunks_sent in
        {| s_events := SendOk (PBinary chunk) :: status
                       ++ Sleep (CHUNK_DURATION_MS / 2) :: s_events r;
           s_chunks_sent := s_chunks_sent r;
           s_raised := s_raised r |}
    else
      {| s_events := [SendClosed (PBinary chunk);
                      Print (LConnectionClosed chunks_sent)];
         s_chunks_sent := chunks_sent;
         s_raised := None |}
  end.

(** [sender()], started with [chunks_sent = 0]. *)
Definition sender (audio_float32 : list sample) (c : conn) : sender_result :=
  let len := Z.of_nat (length audio_float32) in
  let total_chunks := len / chunk_samples in
  let r := sender_loop audio_float32 total_chunks
             (py_range 0 len chunk_samples) c 0 in
  match s_raised r with
  | Some e => r
  | None =>
    {| s_events := s_events r ++ [Print (LFinished (s_chunks_sent r));
                                  Sleep 10000; SetDone];
       s_chunks_sent := s_chunks_sent r;
       s_raised := None |}
  end.

(** The chunks that [ws.send] accepted, in order. *)
Definition frames_sent (tr : list event) : list (list sample) :=
  omap (fun e => match e with SendOk (PBinary ch) => Some ch | _ => None end) tr.

(** The values of [chunks_sent] at which a progress line was printed:
    [n] counts the chunks accepted so far. *)
Fixpoint progress_marks (n : Z) (tr : list event) : list Z :=
  match tr with
  | [] => []
  | SendOk (PBinary _) :: tr' => progress_marks (n + 1) tr'
  | Print (LProgress _) :: tr' => n :: progress_marks n tr'
  | _ :: tr' => progress_marks n tr'
  end.

End Feeder.

(** ** Strings *)

(** The characters [str.strip()] removes, among the code points below 256. *)
Definition py_isspace (a : ascii) : bool :=
  let n := N_of_ascii a in
  ((9 <=? n) && (n <=? 13) || (28 <=? n) && (n <=? 32)
   || (n =? 133) || (n =? 160))%N.

(** [lstrip] on the characters of a string. *)
Fixpoint lstrip_chars (l : list ascii) : list ascii :=
  match l with
  | a :: l' => if py_isspace a then lstrip_chars l' else l
  | [] => []
  end.

(** [rstrip] on the characters of a string. *)
Definition rstrip_chars (l : list ascii) : list ascii :=
  rev (lstrip_chars (rev l)).

(** [s.strip()] *)
Definition py_strip (s : string) : string :=
  string_of_list_ascii
    (rstrip_chars (lstrip_chars (list_ascii_of_string s))).

Definition py_lower_char (a : ascii) : ascii :=
  let n := N_of_ascii a in
  if ((65 <=? n) && (n <=? 90)
      || (192 <=? n) && (n <=? 222) && negb (n =? 215))%N
  then ascii_of_N (n + 32) else a.

(** [s.lower()] *)
Fixpoint py_lower (s : string) : string :=
  match s with
  | String a s' => String (py_lower_char a) (py_lower s')
  | EmptyString => EmptyString
  end.

(** [needle in hay] for two strings. *)
Fixpoint py_contains_str (needle hay : string) : bool :=
  String.prefix needle hay
  || match hay with
     | String _ hay' => py_contains_str needle hay'
     | EmptyString => false
     end.

(** The line feed. *)
Definition nl : string := String (ascii_of_nat 10) "".

(** [sep.join(l)] *)
Fixpoint py_join (sep : string) (l : list string) : string :=
  match l with
  | [] => ""
  | [s] => s
  | s :: l' => s +:+ sep +:+ py_join sep l'
  end.

(** [c * n] for a one-character string [c]. *)
Fixpoint py_repeat (c : ascii) (n : nat) : string :=
  match n with
  | O => ""
  | S n' => String c (py_repeat c n')
  end.

(** ** Python operations on decoded JSON *)

Section JsonOps.
Context `{PyFloat}.

(** [key in data] *)
Definition py_in (key : string) (data : json) : result bool :=
  match data with
  | JObj o => Ok (bool_decide (is_Some (lookup_key key o)))
  | JArr l =>
    Ok (existsb (fun v => match v with
                          | JStr s => bool_decide (s = key)
                          | _ => false
                          end) l)
  | JStr s => Ok (py_contains_str key s)
  | _ => Raise TypeError
  end.

(** [data[key]] for a string [key] *)
Definition py_getitem (data : json) (key : string) : result json :=
  match data with
  | JObj o =>
    match lookup_key key o with
    | Some v => Ok v
    | None => Raise KeyError
    end
  | _ => Raise TypeError
  end.

(** The values a [for] loop over [v] visits. *)
Definition py_iter (v : json) : result (list json) :=
  match v with
  | JArr l => Ok l
  | JObj o => Ok (map (fun kv => JStr (fst kv)) o)
  | JStr s => Ok (map (fun a => JStr (String a "")) (list_ascii_of_string s))
  | _ => Raise TypeError
  end.

(** [seg.get(key, default)] *)
Definition py_get (seg : json) (key : string) (dflt : json) : result json :=
  match seg with
  | JObj o => Ok (default dflt (lookup_key key o))
  | _ => Raise AttributeError
  end.

(** [v.strip()] *)
Definition py_strip_val (v : json) : result string :=
  match v with
  | JStr s => Ok (py_strip s)
  | _ => Raise AttributeError
  end.

(** [v.lower()] *)
Definition py_lower_val (v : json) : result string :=
  match v with
  | JStr s => Ok (py_lower s)
  | _ => Raise AttributeError
  end.

(** [float(v)] *)
Definition py_float (v : json) : result float :=
  match v with
  | JInt n =>
    match float_of_int n with Some x => Ok x | None => Raise OverflowError end
  | JBool b =>
    match float_of_int (if b then 1 else 0) with
    | Some x => Ok x
    | None => Raise OverflowError
    end
  | JFloat x => Ok x
  | JStr s =>
    match float_of_str s with Some x => Ok x | None => Raise ValueError end
  | _ => Raise TypeError
  end.

(** ** The result collector *)

(** The variables [receiver] updates: the shared list [results], the
    nonlocal [last_text], its own [segment_count], and what it printed. *)
Record receiver_state := {
  results : list json;
  last_text : string;
  segment_count : Z;
  r_log : list console_line
}.

Definition receiver_init : receiver_state :=
  {| results := []; last_text := ""; segment_count := 0; r_log := [] |}.

Definition r_print (l : console_line) (st : receiver_state) : receiver_state :=
  {| results := results st; last_text := last_text st;
     segment_count := segment_count st; r_log := r_log st ++ [l] |}.

(** The body of [for seg in data["segments"]]; an exception leaves the state
    as it is at the statement that raises. *)
Definition handle_segment (seg : json) (st : receiver_state)
    : receiver_state * option exn :=
  let st := {| results := results st ++ [seg]; last_text := last_text st;
               segment_count := segment_count st; r_log := r_log st |} in
  match t ← py_get seg "text" (JStr ""); py_strip_val t with
  | Raise e => (st, Some e)
  | Ok text =>
    if bool_decide (text ≠ "") && bool_decide (text ≠ last_text st) then
      let n := segment_count st + 1 in
      ({| results := results st; last_text := text; segment_count := n;
          r_log := if decide (n mod 5 = 1)
                   then r_log st ++ [LSegment n (String.substring 0 60 text)]
                   else r_log st |}, None)
    else (st, None)
  end.

Fixpoint handle_segments (segs : list json) (st : receiver_state)
    : receiver_state * option exn :=
  match segs with
  | [] => (st, None)
  | seg :: segs' =>
    match handle_segment seg st with
    | (st', None) => handle_segments segs' st'
    | (st', Some e) => (st', Some e)
    end
  end.

(** The [if "segments" in data: ... elif "message" in data: ...] statement. *)
Definition handle_data (data : json) (st : receiver_state)
    : receiver_state * option exn :=
  match py_in "segments" data with
  | Raise e => (st, Some e)
  | Ok true =>
    match v ← py_getitem data "segments"; py_iter v with
    | Raise e => (st, Some e)
    | Ok segs => handle_segments segs st
    end
  | Ok false =>
    match py_in "message" data with
    | Raise e => (st, Some e)
    | Ok true =>
      match m ← py_getitem data "message"; low ← py_lower_val m;
            mret (m, py_contains_str "error" low) with
      | Raise e => (st, Some e)
      | Ok (JStr m, true) => (r_print (LServerError m) st, None)
      | Ok _ => (st, None)
      end
    | Ok false => (st, None)
    end
  end.

(** One [await asyncio.wait_for(ws.recv(), timeout=2.0)]: it times out, the
    connection is closed, or a message arrives.  The message is given by what
    [json.loads] makes of it, the only use the collector has for it. *)
Inductive recv_outcome :=
| RecvTimeout
| RecvClosed
| RecvMsg (loads : result json).

(** The [while not receive_done.is_set()] loop.  [inbox] lists the receives
    it performs while it finds the latch unset: at the end of [inbox] the
    loop head finds [receive_done] set. *)
Fixpoint receiver_loop (inbox : list recv_outcome) (st : receiver_state)
    : receiver_state :=
  match inbox with
  | [] => st
  | RecvTimeout :: inbox' => receiver_loop inbox' st
  | RecvClosed :: _ => st
  | RecvMsg (Raise e) :: _ => r_print (LReceiverError e) st
  | RecvMsg (Ok data) :: inbox' =>
    match handle_data data st with
    | (st', None) => receiver_loop inbox' st'
    | (st', Some e) => r_print (LReceiverError e) st'
    end
  end.

(** [receiver()] *)
Definition receiver (inbox : list recv_outcome) : receiver_state :=
  receiver_loop inbox receiver_init.

End JsonOps.

(** ** The session *)

(** [sys.argv]: the module constants [AUDIO_FILE] and [RUN_NUMBER]. *)
Record argv := {
  AUDIO_FILE : string;
  RUN_NUMBER : Z
}.

(** What [wave.open] reads: [getframerate()], [getnframes()], and the 16-bit
    values that [np.frombuffer(readframes(n_frames), dtype=np.int16)]
    decodes. *)
Record wav := {
  framerate : Z;
  n_frames : Z;
  pcm : list sample
}.

(** A file [wave.open] can return: the two header fields fit their 32 bits,
    and a file of no frames holds no sample. *)
Definition wav_ok (w : wav) : Prop :=
  0 < framerate w < 2 ^ 32 /\ 0 <= n_frames w < 2 ^ 32
  /\ (n_frames w = 0 -> pcm w = []).

Section Session.
Context `{PyFloat}.

(** The outside world of one run: whether [websockets.connect] raises, how
    many sends the connection accepts, the receives of the collector, and
    the two readings of [time.time()]. *)
Record network := {
  connect_error : option exn;
  sends : conn;
  inbox : list recv_outcome;
  start_time : float;
  end_time : float
}.

Definition config (a : argv) : json :=
  JObj [("uid", JStr ("long-test-" +:+ py_str (RUN_NUMBER a)));
        ("language", JStr "en");
        ("task", JStr "transcribe");
        ("model", JStr "small.en");
        ("use_vad", JBool true)].

(** [out_events]: the sends, sleeps and prints of the task that runs
    [run_transcription] and of [sender], which it awaits, in program order.
    [collected]: the final state of [receiver].  [returned]: the tuple
    [(results, total_time, duration)]. *)
Record session := {
  out_events : list event;
  collected : receiver_state;
  returned : list json * float * float
}.

(** [run_transcription()].  [Raise]: an exception leaves the function (the
    division of line 34 is outside the [try]). *)
Definition run_transcription (a : argv) (w : wav) (net : network)
    : result session :=
  if decide (framerate w = 0) then Raise ZeroDivisionError else
  let duration := true_div (n_frames w) (framerate w) in
  let audio_float32 := pcm w in
  let total_time := fsub (end_time net) (start_time net) in
  match connect_error net with
  | Some e =>
    Ok {| out_events := [Print (LConnectionError e)];
          collected := receiver_init;
          returned := ([], total_time, duration) |}
  | None =>
    if conn_open (sends net) then
      let s := sender audio_float32 (conn_next (sends net)) in
      let r := receiver (inbox net) in
      Ok {| out_events :=
              SendOk (PText (config a)) :: Print (LSentConfig (config a))
              :: s_events s
              ++ match s_raised s with
                 | Some e => [Print (LConnectionError e)]
                 | None => []
                 end;
            collected := r;
            returned := (results r, total_time, duration) |}
    else
      Ok {| out_events := [SendClosed (PText (config a));
                           Print (LConnectionError ConnectionClosed)];
            collected := receiver_init;
            returned := ([], total_time, duration) |}
  end.

(** ** The report *)

Definition format_line (start end_ : float) (text : string) : string :=
  "[" +:+ fmt 1 start +:+ "s - " +:+ fmt 1 end_ +:+ "s] " +:+ text.

(** The deduplication loop of [main]. *)
Fixpoint transcript_loop (results : list json) (seen_texts : gset string)
    (transcript_lines : list string) : result (list string) :=
  match results with
  | [] => Ok transcript_lines
  | seg :: results' =>
    t ← py_get seg "text" (JStr "");
    text ← py_strip_val t;
    if bool_decide (text ≠ "") && bool_decide (text ∉ seen_texts) then
      s ← py_get seg "start" (JInt 0);
      start ← py_float s;
      e ← py_get seg "end" (JInt 0);
      end_ ← py_float e;
      transcript_loop results' ({[text]} ∪ seen_texts)
        (transcript_lines ++ [format_line start end_ text])
    else transcript_loop results' seen_texts transcript_lines
  end.

Definition compile_transcript (results : list json) : result (list string) :=
  transcript_loop results ∅ [].

Definition rule : string := py_repeat "=" 70.

(** The first five [f.write] calls of [main]. *)
Definition report_head (a : argv) (audio_duration total_time : float)
    : list string :=
  [ "Transcription Results - Run #" +:+ py_str (RUN_NUMBER a) +:+ nl;
    rule +:+ nl;
    "Audio file: " +:+ AUDIO_FILE a +:+ nl;
    "Audio duration: " +:+ fmt 1 audio_duration +:+ "s ("
      +:+ fmt 1 (fdiv_int audio_duration 60) +:+ " min)" +:+ nl;
    "Processing time: " +:+ fmt 1 total_time +:+ "s ("
      +:+ fmt 1 (fdiv_int total_time 60) +:+ " min)" +:+ nl ].

(** The four [f.write] calls that follow them. *)
Definition report_tail (audio_duration total_time : float)
    (transcript_lines : list string) : list string :=
  [ "Real-time factor: "
      +:+ fmt 2 (fdiv total_time audio_duration) +:+ "x" +:+ nl;
    "Unique segments: "
      +:+ py_str (Z.of_nat (length transcript_lines)) +:+ nl;
    rule +:+ nl +:+ nl;
    py_join nl transcript_lines ].

(** The [f.write] calls of [main], in order, and the exception that ends
    them, if any: the real-time factor divides by [audio_duration]. *)
Definition write_report (a : argv) (audio_duration total_time : float)
    (transcript_lines : list string) : list string * option exn :=
  if is_zero audio_duration
  then (report_head a audio_duration total_time, Some ZeroDivisionError)
  else
    (report_head a audio_duration total_time
     ++ report_tail audio_duration total_time transcript_lines, None).

(** [results_file] *)
Definition results_path (a : argv) (timestamp : string) : string :=
  "/home/ubuntu/event-b/whisperlive-runpod/artifacts/transcription-run"
  +:+ py_str (RUN_NUMBER a) +:+ "-" +:+ timestamp +:+ ".txt".

(** What a run of [main] leaves behind: the session, if
    [run_transcription] returned; the report file, if it was opened, as its
    path and the strings written to it; the exception that escapes [main],
    if any. *)
Record outcome := {
  m_session : option session;
  m_file : option (string * list string);
  m_raised : option exn
}.

(** [main()].  [timestamp] is [datetime.now().strftime("%Y%m%d-%H%M%S")];
    the file system is taken to accept the directory and the file. *)
Definition main (a : argv) (timestamp : string) (w : wav) (net : network)
    : outcome :=
  match run_transcription a w net with
  | Raise e => {| m_session := None; m_file := None; m_raised := Some e |}
  | Ok s =>
    let '(results, total_time, audio_duration) := returned s in
    match compile_transcript results with
    | Raise e =>
      {| m_session := Some s; m_file := None; m_raised := Some e |}
    | Ok transcript_lines =>
      let results_file := results_path a timestamp in
      let '(written, e) :=
        write_report a audio_duration total_time transcript_lines in
      {| m_session := Some s;
         m_file := Some (results_file, written);
         m_raised := e |}
    end
  end.

End Session.

(** ** Notions used to state the properties *)

(** The [k]-th chunk of [F] elements. *)
Definition chunk_at {A} (F : nat) (l : list A) (k : nat) : list A :=
  take F (drop (k * F) l).

(** The slices the loop of [sender] takes, one per offset of its range. *)
Definition chunks (audio : list sample) : list (list sample) :=
  map (fun i => py_slice audio i (i + chunk_samples))
      (py_range 0 (Z.of_nat (length audio)) chunk_samples).

(** The values [chunks_sent] takes while [n] chunks are sent. *)
Definition sent_counts (n : nat) : list Z :=
  map (fun j : nat => 0 + 1 + Z.of_nat j) (seq 0 n).

Section Observations.
Context `{PyFloat}.

(** What [ws.send] was called with, in order, whether or not it returned. *)
Definition send_calls (tr : list event) : list payload :=
  omap (fun e => match e with
                 | SendOk p | SendClosed p => Some p
                 | _ => None
                 end) tr.

Definition is_frame (p : payload) : Prop :=
  match p with
  | PBinary _ => True
  | PText _ => False
  end.

(** [st] with [seg] appended to [results], nothing else changed. *)
Definition appended (seg : json) (st : receiver_state) : receiver_state :=
  {| results := results st ++ [seg]; last_text := last_text st;
     segment_count := segment_count st; r_log := r_log st |}.

(** [line] is the transcript line of a record of [results] whose stripped
    text is [text], and [text] is not empty. *)
Definition line_from (results : list json) (line : string) : Prop :=
  exists seg start end_ text,
    seg ∈ results
    /\ (t ← py_get seg "text" (JStr ""); py_strip_val t) = Ok text
    /\ text ≠ "" /\ py_strip text = text
    /\ line = format_line start end_ text.

End Observations.

(** ** Transcript segments *)

Section Segments.
Context `{PyFloat}.

(** A TranscriptSegment of the specification. *)
Record TranscriptSegment := {
  seg_start : float;
  seg_end : float;
  seg_text : string
}.

(** [v] is a JSON number that [float(v)] turns into [x]. *)
Definition encodes_number (x : float) (v : json) : Prop :=
  v = JFloat x \/ exists n, v = JInt n /\ float_of_int n = Some x.

(** [j] is a record that carries the three fields of [s] (in any order,
    among any other fields). *)
Definition encodes (s : TranscriptSegment) (j : json) : Prop :=
  exists o vs ve,
    j = JObj o
    /\ lookup_key "text" o = Some (JStr (seg_text s))
    /\ lookup_key "start" o = Some vs /\ encodes_number (seg_start s) vs
    /\ lookup_key "end" o = Some ve /\ encodes_number (seg_end s) ve.

(** The text of a segment as both loops compare it. *)
Definition normalized_text (s : TranscriptSegment) : string :=
  py_strip (seg_text s).

(** The transcript line of a segment. *)
Definition segment_line (s : TranscriptSegment) : string :=
  format_line (seg_start s) (seg_end s) (normalized_text s).

(** The record at index [i] is the first one with its normalized text. *)
Definition first_with_text (segs : list TranscriptSegment) (i : nat)
    (s : TranscriptSegment) : Prop :=
  Forall (fun s' => normalized_text s' ≠ normalized_text s) (take i segs).

(** The same, and the text is not empty. *)
Definition first_seen (segs : list TranscriptSegment) (i : nat)
    (s : TranscriptSegment) : Prop :=
  normalized_text s ≠ "" /\ first_with_text segs i s.

#[global] Instance first_with_text_dec segs i s :
  Decision (first_with_text segs i s).
Proof. unfold first_with_text. apply _. Defined.

#[global] Instance first_seen_dec segs i s : Decision (first_seen segs i s).
Proof. unfold first_seen. apply _. Defined.

(** The records of [segs] that [keep] selects, in their order. *)
Definition select_records
    (keep : list TranscriptSegment -> nat -> TranscriptSegment -> Prop)
    `{forall segs i s, Decision (keep segs i s)}
    (segs : list TranscriptSegment) : list TranscriptSegment :=
  omap (fun i => s ← segs !! i;
                 if decide (keep segs i s) then Some s else None)
       (seq 0 (length segs)).

(** The deduplication policy in the words of the specification: in receipt
    order, keep the first occurrence of each distinct normalized text. *)
Definition first_of_each_text (segs : list TranscriptSegment)
    : list TranscriptSegment :=
  select_records first_with_text segs.

(** The policy with the guard of the code: the first occurrence of each
    distinct non-empty normalized text. *)
Definition first_occurrences (segs : list TranscriptSegment)
    : list TranscriptSegment :=
  select_records first_seen segs.

(** A record with the fields of [s] and no other. *)
Definition to_json (s : TranscriptSegment) : json :=
  JObj [("start", JFloat (seg_start s));
        ("end", JFloat (seg_end s));
        ("text", JStr (seg_text s))].

(** The loop of [main] on typed segments: [seen] is [seen_texts]. *)
Fixpoint keep_new (seen : gset string) (ss : list TranscriptSegment)
    : list TranscriptSegment :=
  match ss with
  | [] => []
  | s :: ss' =>
    if bool_decide (normalized_text s ≠ "")
       && bool_decide (normalized_text s ∉ seen)
    then s :: keep_new ({[normalized_text s]} ∪ seen) ss'
    else keep_new seen ss'
  end.

(** [seen] holds the non-empty texts of the records in [pre]. *)
Definition seen_of (pre : list TranscriptSegment) (seen : gset string) : Prop :=
  forall t, t ≠ "" -> t ∈ seen <-> exists s, s ∈ pre /\ normalized_text s = t.

End Segments.

(** ** An instance of the float operations

    Exact rationals, to run the model on concrete inputs.  Nothing is
    rounded before it is formatted, and no string is read as a float. *)

Module Exact.

Import QArith_base.
#[local] Close Scope Q_scope.
#[local] Open Scope Z_scope.

(** The nearest integer, ties to even. *)
Definition round_half_even (q : Q) : Z :=
  let n := Qnum q in
  let d := Z.pos (Qden q) in
  let fl := n / d in
  let r2 := 2 * (n mod d) in
  if r2 <? d then fl
  else if d <? r2 then fl + 1
  else if Z.even fl then fl else fl + 1.

Fixpoint zero_pad (width : nat) (s : string) : string :=
  match width with
  | O => s
  | S w => if decide (String.length s < S w)%nat
           then zero_pad w ("0" +:+ s) else s
  end.

Definition fmt_Q (d : nat) (q : Q) : string :=
  let p := 10 ^ Z.of_nat d in
  let r := Z.abs (round_half_even (Qmult q (inject_Z p))) in
  (if Qnum q <? 0 then "-" else "")
  +:+ pretty (r / p)
  +:+ match d with
      | O => ""
      | _ => "." +:+ zero_pad d (pretty (r mod p))
      end.

Definition true_div_Q (n m : Z) : Q :=
  Qdiv (inject_Z n) (inject_Z m).

#[global] Instance exact_float : PyFloat := {|
  float := Q;
  float_of_int := fun n => Some (inject_Z n);
  float_of_str := fun _ => None;
  true_div := true_div_Q;
  fdiv := Qdiv;
  fdiv_int := fun x n => Qdiv x (inject_Z n);
  fsub := Qminus;
  is_zero := fun x => Qnum x =? 0;
  fmt := fmt_Q
|}.

End Exact.

(** ** Inputs of concrete runs *)

Module Runs.

Import Exact.

Definition ratio (n : Z) (d : positive) : float := QArith_base.Qmake n d.

Definition hello : TranscriptSegment :=
  {| seg_start := ratio 0 1; seg_end := ratio 3 2; seg_text := "hello world" |}.

(** The text of [hello] again, with other times. *)
Definition hello_again : TranscriptSegment :=
  {| seg_start := ratio 3 2; seg_end := ratio 3 1;
     seg_text := " hello world " |}.

Definition blank : TranscriptSegment :=
  {| seg_start := ratio 3 1; seg_end := ratio 4 1; seg_text := "  " |}.

Definition bye : TranscriptSegment :=
  {| seg_start := ratio 4 1; seg_end := ratio 21 4; seg_text := "bye" |}.

Definition batch (ss : list TranscriptSegment) : json :=
  JObj [("segments", JArr (map to_json ss))].

Definition args : argv := {| AUDIO_FILE := "/tmp/audio2.wav"; RUN_NUMBER := 1 |}.

(** A quarter of a second of silence at 16 kHz: three chunks, the last one
    of 800 samples. *)
Definition quarter_second : wav :=
  {| framerate := 16000; n_frames := 4000; pcm := replicate 4000 0 |}.

Definition no_audio : wav :=
  {| framerate := 16000; n_frames := 0; pcm := [] |}.

Definition silent_server (c : conn) : network :=
  {| connect_error := None; sends := c; inbox := [RecvTimeout; RecvTimeout];
     start_time := ratio 0 1; end_time := ratio 12 1 |}.

Definition talking_server (c : conn) : network :=
  {| connect_error := None; sends := c;
     inbox := [RecvMsg (Ok (batch [hello; hello_again]));
               RecvTimeout;
               RecvMsg (Ok (batch [blank; bye]));
               RecvClosed];
     start_time := ratio 0 1; end_time := ratio 12 1 |}.

(** Half a chunk of silence. *)
Definition short_clip : wav :=
  {| framerate := 16000; n_frames := 800; pcm := replicate 800 0 |}.

Definition refusing_server : network :=
  {| connect_error := Some OSError; sends := None; inbox := [];
     start_time := ratio 0 1; end_time := ratio 1 1 |}.

(** A server whose batch holds a number among its segments. *)
Definition careless_server : network :=
  {| connect_error := None; sends := None;
     inbox := [RecvMsg (Ok (JObj [("segments",
                                    JArr [to_json hello; JInt 7;
                                          to_json bye])]));
               RecvMsg (Ok (batch [bye]))];
     start_time := ratio 0 1; end_time := ratio 12 1 |}.

End Runs.

(** ** Further notions *)

(** How many of [n] sends the connection [c] accepts. *)
Definition accepted (c : conn) (n : nat) : nat :=
  match c with
  | None => n
  | Some k => k `min` n
  end.

(** How many texts of a sequence are not empty and differ from the
    non-empty text before them, [last] being the one before the first. *)
Fixpoint count_changes (last : string) (texts : list string) : Z :=
  match texts with
  | [] => 0
  | t :: texts' =>
    if bool_decide (t ≠ "") && bool_decide (t ≠ last)
    then 1 + count_changes t texts'
    else count_changes last texts'
  end.

(** The last non-empty text of a sequence, [last] if there is none. *)
Fixpoint last_change (last : string) (texts : list string) : string :=
  match texts with
  | [] => last
  | t :: texts' =>
    if bool_decide (t ≠ "") && bool_decide (t ≠ last)
    then last_change t texts'
    else last_change last texts'
  end.

Section FurtherNotions.
Context `{PyFloat}.

Definition is_timeout (r : recv_outcome) : bool :=
  match r with
  | RecvTimeout => true
  | _ => false
  end.

(** A JSON object, a Python [dict]. *)
Definition is_record (j : json) : Prop :=
  match j with
  | JObj _ => True
  | _ => False
  end.

(** What the collector may print for a segment: the count is one more than
    a multiple of 5 and the text has at most 60 characters. *)
Definition segment_entry_ok (l : console_line) : Prop :=
  match l with
  | LSegment n text60 => n mod 5 = 1 /\ (String.length text60 <= 60)%nat
  | _ => True
  end.

(** The exceptions that the deduplication loop of [main] can raise. *)
Definition transcript_exn (e : exn) : Prop :=
  e = AttributeError \/ e = TypeError \/ e = ValueError \/ e = OverflowError.

(** The state [st'] continues [st] over the texts of [ss]. *)
Definition tracks (st st' : receiver_state) (ss : list TranscriptSegment)
    : Prop :=
  segment_count st'
  = segment_count st + count_changes (last_text st) (normalized_text <$> ss)
  /\ last_text st' = last_change (last_text st) (normalized_text <$> ss).

End FurtherNotions.

(** * Properties *)

(** ** Slicing a list into chunks *)

Section Chunks.
Context {A : Type}.
Implicit Types l : list A.

Lemma chunk_at_succ F l k :
  chunk_at F l (S k) = chunk_at F (drop F l) k.
Proof.
  unfold chunk_at. rewrite drop_drop. reflexivity.
Qed.

Lemma concat_chunk_at F n l :
  (length l <= n * F)%nat -> concat (map (chunk_at F l) (seq 0 n)) = l.
Proof.
  revert l. induction n as [|n IH]; intros l Hl.
  - destruct l; [reflexivity | simpl in Hl; lia].
  - rewrite <- cons_seq, <- fmap_S_seq. simpl.
    rewrite map_map.
    rewrite (map_ext _ (chunk_at F (drop F l))) by (intros; apply chunk_at_succ).
    rewrite IH.
    + unfold chunk_at. simpl. apply take_drop.
    + rewrite length_drop. lia.
Qed.

Lemma length_chunk_at F l k :
  length (chunk_at F l k) = (F `min` (length l - k * F))%nat.
Proof. unfold chunk_at. rewrite length_take, length_drop. reflexivity. Qed.

Lemma py_slice_chunk_at l (F : Z) (k : nat) :
  0 < F ->
  py_slice l (0 + Z.of_nat k * F) (0 + Z.of_nat k * F + F)
  = chunk_at (Z.to_nat F) l k.
Proof.
  intros HF. unfold py_slice, chunk_at. f_equal; [f_equal; lia|].
  f_equal. rewrite Z.add_0_l, Z2Nat.inj_mul, Nat2Z.id by lia. reflexivity.
Qed.

End Chunks.

Lemma chunk_samples_eq : chunk_samples = 1600.
Proof. reflexivity. Qed.

(** The number of offsets in [range(0, L, F)]. *)
Lemma range_count (L F : Z) :
  0 <= L -> 0 < F ->
  (L - 0 + F - 1) / F = L / F + (if decide (L mod F = 0) then 0 else 1).
Proof.
  intros HL HF.
  pose proof (Z.div_mod L F ltac:(lia)) as Hdm.
  pose proof (Z.mod_pos_bound L F HF) as Hb.
  case_decide as Hr.
  - symmetry. apply (Z.div_unique _ _ _ (F - 1)); lia.
  - symmetry. apply (Z.div_unique _ _ _ (L mod F - 1)); lia.
Qed.

(** ** The feeder *)

Section FeederFacts.
Context `{PyFloat}.

Lemma chunks_chunk_at audio :
  chunks audio
  = map (chunk_at (Z.to_nat chunk_samples) audio)
        (seq 0 (Z.to_nat ((Z.of_nat (length audio) - 0 + chunk_samples - 1)
                          / chunk_samples))).
Proof.
  unfold chunks, py_range. rewrite map_map. apply map_ext. intros k.
  apply py_slice_chunk_at. rewrite chunk_samples_eq. lia.
Qed.

Lemma frames_sent_app (a b : list event) :
  frames_sent (a ++ b) = frames_sent a ++ frames_sent b.
Proof. apply omap_app. Qed.

Lemma progress_marks_app (a b : list event) (n : Z) :
  progress_marks n (a ++ b)
  = progress_marks n a
    ++ progress_marks (n + Z.of_nat (length (frames_sent a))) b.
Proof.
  revert n. induction a as [|e a IH]; intros n.
  - simpl. f_equal. lia.
  - destruct e as [[j|ch]|p|[]| |]; simpl; rewrite ?IH; try reflexivity.
    f_equal. f_equal. lia.
Qed.

(** With the connection open and a nonzero [total_chunks] the loop sends the
    slice of every offset and never raises. *)
Lemma sender_loop_open audio T offs sent :
  T ≠ 0 ->
  let r := sender_loop audio T offs None sent in
  frames_sent (s_events r)
  = map (fun i => py_slice audio i (i + chunk_samples)) offs
  /\ s_raised r = None
  /\ s_chunks_sent r = sent + Z.of_nat (length offs).
Proof.
  intros HT. revert sent. induction offs as [|i offs IH]; intros sent.
  - simpl. repeat split. lia.
  - specialize (IH (sent + 1)). destruct IH as (IH1 & IH2 & IH3).
    cbn [sender_loop conn_open conn_next].
    destruct (decide (T = 0)) as [|_]; [contradiction|].
    cbn [s_events s_raised s_chunks_sent]. repeat split.
    + cbn [frames_sent omap list_omap]. fold (frames_sent).
      change (omap _ ?l) with (frames_sent l).
      rewrite frames_sent_app.
      destruct (decide _); cbn [frames_sent omap list_omap app];
        change (omap _ ?l) with (frames_sent l); rewrite IH1; reflexivity.
    + exact IH2.
    + rewrite IH3. simpl length. lia.
Qed.

(** The cadence of the progress line, for a nonzero [total_chunks]. *)
Lemma sender_loop_marks audio T offs sent :
  T ≠ 0 ->
  progress_marks sent (s_events (sender_loop audio T offs None sent))
  = filter (fun k => k mod (T / 10 + 1) = 0)
      (map (fun j : nat => sent + 1 + Z.of_nat j) (seq 0 (length offs))).
Proof.
  intros HT. revert sent. induction offs as [|i offs IH]; intros sent.
  - reflexivity.
  - cbn [sender_loop conn_open conn_next].
    destruct (decide (T = 0)) as [|_]; [contradiction|].
    cbn [s_events length]. rewrite <- cons_seq, <- fmap_S_seq.
    cbn [map]. rewrite map_map.
    rewrite (map_ext _ (fun j : nat => sent + 1 + 1 + Z.of_nat j))
      by (intros; lia).
    replace (sent + 1 + Z.of_nat 0) with (sent + 1) by lia.
    cbn [progress_marks].
    destruct (decide ((sent + 1) mod (T / 10 + 1) = 0)) as [Hm|Hm].
    + rewrite filter_cons_True by exact Hm.
      cbn [app progress_marks]. rewrite IH. reflexivity.
    + rewrite filter_cons_False by exact Hm.
      cbn [app progress_marks]. rewrite IH. reflexivity.
Qed.

End FeederFacts.

Section FeederClaims.
Context `{PyFloat}.

Lemma py_range_small (L F : Z) :
  0 <= L < F -> py_range 0 L F = if decide (L = 0) then [] else [0].
Proof.
  intros HL. unfold py_range. rewrite range_count by lia.
  rewrite Z.div_small by lia.
  destruct (decide (L = 0)) as [->|HL0].
  - rewrite Z.mod_0_l by lia.
    destruct (decide (0 = 0)); [reflexivity | contradiction].
  - rewrite Z.mod_small by lia.
    destruct (decide (L = 0)); [contradiction | reflexivity].
Qed.

(** With the connection open, the chunks [ws.send] accepts are the slices of
    every offset of the range: the loop skips none. *)
Lemma sender_frames_open (audio : list sample) :
  frames_sent (s_events (sender audio None)) = chunks audio.
Proof.
  unfold sender, chunks.
  set (L := Z.of_nat (length audio)).
  destruct (decide (L / chunk_samples = 0)) as [HT|HT].
  - rewrite HT.
    assert (0 <= L < chunk_samples) as HL.
    { apply Z.div_small_iff in HT; rewrite chunk_samples_eq in *; lia. }
    rewrite py_range_small by exact HL.
    destruct (decide (L = 0)); reflexivity.
  - destruct (sender_loop_open audio (L / chunk_samples)
                (py_range 0 L chunk_samples) 0 HT) as (Hf & Hr & _).
    cbv zeta in Hf, Hr. rewrite Hr. cbn [s_events].
    rewrite frames_sent_app, Hf. simpl. apply app_nil_r.
Qed.

End FeederClaims.

Section FrameSlicing.
Context `{PyFloat}.

(** C1 (as amended).  With the connection open, the feeder transmits the
    whole buffer as consecutive chunks: their concatenation is the buffer,
    there are [L // F] chunks of [F = chunk_samples] samples each, and when
    [L] is not a multiple of [F] one more chunk follows them, which holds
    the trailing [L % F] samples. *)
Theorem C1_sender_sends_every_chunk (audio : list sample) :
  let L := Z.of_nat (length audio) in
  let fs := frames_sent (s_events (sender audio None)) in
  concat fs = audio
  /\ Z.of_nat (length fs)
     = L / chunk_samples + (if decide (L mod chunk_samples = 0) then 0 else 1)
  /\ (forall (k : nat) (ch : list sample), fs !! k = Some ch ->
        if decide (Z.of_nat k < L / chunk_samples)
        then Z.of_nat (length ch) = chunk_samples
        else Z.of_nat (length ch) = L mod chunk_samples
             /\ 0 < L mod chunk_samples).
Proof.
  intros L fs. subst fs. rewrite sender_frames_open, chunks_chunk_at.
  fold L. rewrite range_count by (rewrite ?chunk_samples_eq; lia).
  rewrite chunk_samples_eq.
  pose proof (Z.div_mod L 1600 ltac:(lia)) as Hdm.
  pose proof (Z.mod_pos_bound L 1600 ltac:(lia)) as Hb.
  assert (0 <= L / 1600) as Hq by (apply Z.div_pos; lia).
  set (q := L / 1600) in *. set (r := L mod 1600) in *.
  change (Z.to_nat 1600) with 1600%nat.
  assert (Z.of_nat (length audio) = L) as HL by reflexivity.
  clearbody L q r.
  split; [|split].
  - apply concat_chunk_at. destruct (decide (r = 0)); lia.
  - rewrite length_map, length_seq. destruct (decide (r = 0)); lia.
  - intros k ch Hk. rewrite list_lookup_fmap in Hk.
    destruct (seq 0 _ !! k) as [k'|] eqn:Hs; [|discriminate].
    apply lookup_seq in Hs. destruct Hs as [-> Hlt]. simpl in Hk.
    injection Hk as <-. rewrite length_chunk_at.
    destruct (decide (Z.of_nat k < q)); destruct (decide (r = 0)); lia.
Qed.

End FrameSlicing.

Section Cadence.
Context `{PyFloat}.

(** For a nonzero [total_chunks] the progress line is printed exactly at the
    sent counts that [total_chunks // 10 + 1] divides. *)
Lemma sender_marks_open (audio : list sample) :
  let T := Z.of_nat (length audio) / chunk_samples in
  T ≠ 0 ->
  progress_marks 0 (s_events (sender audio None))
  = filter (fun k => k mod (T / 10 + 1) = 0)
           (sent_counts (length (chunks audio))).
Proof.
  intros T HT. unfold sender. fold T.
  destruct (sender_loop_open audio T
              (py_range 0 (Z.of_nat (length audio)) chunk_samples) 0 HT)
    as (_ & Hr & _).
  cbv zeta in Hr. rewrite Hr. cbn [s_events].
  rewrite progress_marks_app, sender_loop_marks by exact HT.
  cbn [progress_marks]. rewrite app_nil_r.
  unfold sent_counts, chunks. rewrite length_map. reflexivity.
Qed.

(** C3.  A buffer shorter than one chunk has [total_chunks = 0]: its only
    chunk is sent and the percentage [chunks_sent * 100 // total_chunks]
    then raises [ZeroDivisionError], so no progress line is printed at sent
    count 1, although [1 % (0 // 10 + 1) == 0]; the feeder ends there,
    without its final line, grace period and stop signal. *)
Theorem C3_short_buffer_raises (audio : list sample) :
  (0 < length audio)%nat ->
  Z.of_nat (length audio) < chunk_samples ->
  Z.of_nat (length audio) / chunk_samples = 0
  /\ sender audio None
     = {| s_events := [SendOk (PBinary audio)];
          s_chunks_sent := 1;
          s_raised := Some ZeroDivisionError |}
  /\ progress_marks 0 (s_events (sender audio None)) = []
  /\ 1 mod (Z.of_nat (length audio) / chunk_samples / 10 + 1) = 0.
Proof.
  intros Hpos Hlt.
  assert (Z.of_nat (length audio) / chunk_samples = 0) as HT
    by (apply Z.div_small; lia).
  assert (sender audio None
          = {| s_events := [SendOk (PBinary audio)];
               s_chunks_sent := 1;
               s_raised := Some ZeroDivisionError |}) as Hs.
  { unfold sender. rewrite HT, py_range_small by lia.
    destruct (decide (Z.of_nat (length audio) = 0)); [lia|].
    cbn. unfold py_slice. rewrite drop_0, take_ge; [reflexivity|].
    rewrite chunk_samples_eq in *. lia. }
  rewrite Hs, HT. repeat split.
Qed.

(** When the connection accepts [K] chunks and [K] is less than the number
    of offsets, the loop sends the first [K] chunks as an open connection
    would, fails on the next one, reports [K] and leaves the loop. *)
Lemma sender_loop_closed audio T offs (K : nat) sent i :
  T ≠ 0 \/ K = 0%nat ->
  offs !! K = Some i ->
  sender_loop audio T offs (Some K) sent
  = {| s_events :=
         s_events (sender_loop audio T (take K offs) None sent)
         ++ [SendClosed (PBinary (py_slice audio i (i + chunk_samples)));
             Print (LConnectionClosed (sent + Z.of_nat K))];
       s_chunks_sent := sent + Z.of_nat K;
       s_raised := None |}.
Proof.
  revert K sent. induction offs as [|j offs IH]; intros K sent HT Hi.
  - discriminate.
  - destruct K as [|K].
    + injection Hi as ->. cbn [sender_loop conn_open take s_events app].
      replace (sent + Z.of_nat 0) with sent by lia. reflexivity.
    + destruct HT as [HT|]; [|discriminate]. simpl in Hi.
      cbn [sender_loop conn_open conn_next take].
      destruct (decide (T = 0)) as [|_]; [contradiction|].
      rewrite (IH K (sent + 1) (or_introl HT) Hi).
      cbn [s_events s_chunks_sent s_raised]. f_equal.
      * replace (sent + Z.of_nat (S K)) with (sent + 1 + Z.of_nat K) by lia.
        cbn [app]. rewrite <- app_assoc. reflexivity.
      * lia.
Qed.

End Cadence.

(** ** Transcript segments *)

Section SegmentFacts.
Context `{PyFloat}.

Lemma encodes_to_json s : encodes s (to_json s).
Proof.
  exists [("start", JFloat (seg_start s)); ("end", JFloat (seg_end s));
          ("text", JStr (seg_text s))], (JFloat (seg_start s)),
    (JFloat (seg_end s)).
  repeat split; try reflexivity; left; reflexivity.
Qed.

Lemma encodes_map_to_json ss : Forall2 encodes ss (map to_json ss).
Proof.
  induction ss as [|s ss IH]; constructor; [apply encodes_to_json | exact IH].
Qed.

Lemma encodes_number_float x v : encodes_number x v -> py_float v = Ok x.
Proof.
  intros [->|(n & -> & Hn)]; simpl; [reflexivity|]. rewrite Hn. reflexivity.
Qed.

Lemma encodes_text s j :
  encodes s j ->
  (t ← py_get j "text" (JStr ""); py_strip_val t) = Ok (normalized_text s).
Proof.
  intros (o & vs & ve & -> & Ht & _). simpl. rewrite Ht. reflexivity.
Qed.

Lemma encodes_start s j :
  encodes s j -> (v ← py_get j "start" (JInt 0); py_float v) = Ok (seg_start s).
Proof.
  intros (o & vs & ve & -> & _ & Hs & Hvs & _). simpl. rewrite Hs. simpl.
  apply encodes_number_float, Hvs.
Qed.

Lemma encodes_end s j :
  encodes s j -> (v ← py_get j "end" (JInt 0); py_float v) = Ok (seg_end s).
Proof.
  intros (o & vs & ve & -> & _ & _ & _ & He & Hve). simpl. rewrite He. simpl.
  apply encodes_number_float, Hve.
Qed.

End SegmentFacts.

(** ** The collector *)

Section CollectorFacts.
Context `{PyFloat}.

Lemma handle_segment_encoded s j st :
  encodes s j ->
  exists st', handle_segment j st = (st', None)
              /\ results st' = results st ++ [j].
Proof.
  intros Hj. unfold handle_segment. rewrite (encodes_text s j Hj).
  cbn [results last_text].
  destruct (bool_decide _ && bool_decide _); eexists; split; reflexivity.
Qed.

Lemma handle_segment_blank s j st :
  encodes s j -> normalized_text s = "" ->
  handle_segment j st = (appended j st, None).
Proof.
  intros Hj Hblank. unfold handle_segment. rewrite (encodes_text s j Hj).
  rewrite Hblank. reflexivity.
Qed.


Lemma py_in_obj key o :
  py_in key (JObj o) = Ok (bool_decide (is_Some (lookup_key key o))).
Proof. reflexivity. Qed.

Lemma handle_data_segments o segs st :
  lookup_key "segments" o = Some (JArr segs) ->
  handle_data (JObj o) st = handle_segments segs st.
Proof.
  intros Hs. unfold handle_data. rewrite py_in_obj, Hs.
  rewrite bool_decide_eq_true_2 by eauto.
  simpl. rewrite Hs. reflexivity.
Qed.

Lemma handle_data_message o m st :
  lookup_key "segments" o = None ->
  lookup_key "message" o = Some (JStr m) ->
  handle_data (JObj o) st
  = (if py_contains_str "error" (py_lower m)
     then r_print (LServerError m) st else st, None).
Proof.
  intros Hs Hm. unfold handle_data. rewrite !py_in_obj, Hs, Hm.
  rewrite bool_decide_eq_false_2 by (intros [? ?]; discriminate).
  rewrite bool_decide_eq_true_2 by eauto.
  simpl. rewrite Hm. simpl.
  destruct (py_contains_str "error" (py_lower m)); reflexivity.
Qed.



(** C6 (as amended).  A message that [json.loads] cannot parse, and a
    parsed message that is [null], a boolean or a number, ends the receive
    loop: the collector prints a receiver error and returns, with [results]
    as it was and without receiving any later message. *)
Theorem C6_malformed_message_ends_loop (st : receiver_state)
    (inbox' : list recv_outcome) :
  (forall e,
      receiver_loop (RecvMsg (Raise e) :: inbox') st
      = r_print (LReceiverError e) st)
  /\ (forall data,
      match data with
      | JNull | JBool _ | JInt _ | JFloat _ =>
        receiver_loop (RecvMsg (Ok data) :: inbox') st
        = r_print (LReceiverError TypeError) st
      | _ => True
      end)
  /\ (forall e, results (r_print (LReceiverError e) st) = results st).
Proof.
  split; [|split].
  - reflexivity.
  - intros []; exact I || reflexivity.
  - reflexivity.
Qed.

End CollectorFacts.

(** ** The deduplication *)

Section Dedup.
Context `{PyFloat}.

Lemma transcript_loop_encoded ss js seen lines :
  Forall2 encodes ss js ->
  transcript_loop js seen lines
  = Ok (lines ++ map segment_line (keep_new seen ss)).
Proof.
  intros Hf. revert seen lines.
  induction Hf as [|s j ss js Hj _ IH]; intros seen lines.
  - simpl. rewrite app_nil_r. reflexivity.
  - cbn [transcript_loop keep_new].
    pose proof (encodes_text s j Hj) as Ht.
    change (t ← py_get j "text" (JStr ""); py_strip_val t)
      with (py_get j "text" (JStr "") ≫= py_strip_val) in Ht.
    destruct (py_get j "text" (JStr "")) as [t|e]; [|discriminate].
    cbn [mbind result_bind] in Ht |- *. rewrite Ht.
    cbn [mbind result_bind].
    destruct (bool_decide _ && bool_decide _).
    + pose proof (encodes_start s j Hj) as Hs.
      pose proof (encodes_end s j Hj) as He.
      destruct (py_get j "start" (JInt 0)) as [vs|e]; [|discriminate].
      cbn [mbind result_bind] in Hs |- *. rewrite Hs.
      cbn [mbind result_bind].
      destruct (py_get j "end" (JInt 0)) as [ve|e]; [|discriminate].
      cbn [mbind result_bind] in He |- *. rewrite He.
      cbn [mbind result_bind].
      rewrite IH. cbn [map]. rewrite <- app_assoc. reflexivity.
    + apply IH.
Qed.

Lemma seen_of_first pre seen ss s :
  seen_of pre seen ->
  first_seen (pre ++ s :: ss) (length pre) s
  <-> normalized_text s ≠ "" /\ normalized_text s ∉ seen.
Proof.
  intros Hseen. unfold first_seen, first_with_text. rewrite take_app_length.
  rewrite Forall_forall. split.
  - intros [Hne Hall]. split; [exact Hne|].
    intros Hin. apply Hseen in Hin; [|exact Hne].
    destruct Hin as (s' & Hs' & Heq). exact (Hall s' Hs' Heq).
  - intros [Hne Hnot]. split; [exact Hne|].
    intros s' Hs' Heq. apply Hnot, Hseen; [exact Hne|]. eauto.
Qed.

Lemma seen_of_add pre seen s :
  seen_of pre seen ->
  seen_of (pre ++ [s]) ({[normalized_text s]} ∪ seen).
Proof.
  intros Hseen t Ht. rewrite elem_of_union, elem_of_singleton, (Hseen t Ht).
  split.
  - intros [->|(s' & Hs' & Heq)].
    + exists s. split; [apply elem_of_app; right; apply list_elem_of_singleton|];
        reflexivity.
    + exists s'. split; [apply elem_of_app; left; exact Hs' | exact Heq].
  - intros (s' & Hs' & Heq). apply elem_of_app in Hs'.
    destruct Hs' as [Hs'|Hs'].
    + right. eauto.
    + apply list_elem_of_singleton in Hs'. subst s'. left. symmetry. exact Heq.
Qed.

Lemma seen_of_skip pre seen s :
  seen_of pre seen ->
  normalized_text s = "" \/ normalized_text s ∈ seen ->
  seen_of (pre ++ [s]) seen.
Proof.
  intros Hseen Hs t Ht. rewrite (Hseen t Ht). split.
  - intros (s' & Hs' & Heq). exists s'.
    split; [apply elem_of_app; left; exact Hs' | exact Heq].
  - intros (s' & Hs' & Heq). apply elem_of_app in Hs'.
    destruct Hs' as [Hs'|Hs']; [eauto|].
    apply list_elem_of_singleton in Hs'. subst s'.
    destruct Hs as [Hs|Hs]; [congruence|].
    subst t. apply (Hseen _ Ht). exact Hs.
Qed.

Lemma keep_new_first_occurrences pre seen ss :
  seen_of pre seen ->
  keep_new seen ss
  = omap (fun i => s ← (pre ++ ss) !! i;
                   if decide (first_seen (pre ++ ss) i s) then Some s else None)
         (seq (length pre) (length ss)).
Proof.
  revert pre seen. induction ss as [|s ss IH]; intros pre seen Hseen.
  - reflexivity.
  - cbn [keep_new length seq omap list_omap].
    rewrite list_lookup_middle by reflexivity. cbn [mbind option_bind].
    pose proof (seen_of_first pre seen ss s Hseen) as Hfirst.
    assert (forall l : list TranscriptSegment,
               pre ++ s :: l = (pre ++ [s]) ++ l) as Hmid
      by (intros; rewrite <- app_assoc; reflexivity).
    assert (S (length pre) = length (pre ++ [s])) as Hlen
      by (rewrite length_app; simpl; lia).
    destruct (decide (first_seen (pre ++ s :: ss) (length pre) s)) as [Hf|Hf].
    + apply Hfirst in Hf. destruct Hf as [Hne Hnot].
      rewrite !bool_decide_eq_true_2 by assumption. cbn [andb].
      f_equal. rewrite Hmid, Hlen. apply IH, seen_of_add, Hseen.
    + assert (normalized_text s = "" \/ normalized_text s ∈ seen) as Hskip.
      { destruct (decide (normalized_text s = "")); [left; assumption|].
        destruct (decide (normalized_text s ∈ seen)); [right; assumption|].
        exfalso. apply Hf, Hfirst. split; assumption. }
      replace (bool_decide (normalized_text s ≠ "")
               && bool_decide (normalized_text s ∉ seen)) with false.
      * rewrite Hmid, Hlen. apply IH, seen_of_skip; assumption.
      * symmetry. apply andb_false_iff.
        destruct Hskip as [Hb|Hb]; [left|right];
          apply bool_decide_eq_false_2; auto.
Qed.

Lemma seen_of_nil : seen_of [] ∅.
Proof.
  intros t _. split.
  - intros Hin. apply not_elem_of_empty in Hin. contradiction.
  - intros (s & Hs & _). apply not_elem_of_nil in Hs. contradiction.
Qed.

Lemma compile_transcript_encoded ss results :
  Forall2 encodes ss results ->
  compile_transcript results = Ok (map segment_line (first_occurrences ss)).
Proof.
  intros Hf. unfold compile_transcript.
  rewrite (transcript_loop_encoded ss results ∅ [] Hf).
  rewrite (keep_new_first_occurrences [] ∅ ss seen_of_nil). reflexivity.
Qed.

(** C2 (as amended).  On a sequence of collected transcript segments the
    deduplication goes through them in receipt order and keeps exactly the
    first record of each distinct non-empty normalized text, in the
    original order; a record whose text an earlier record has is dropped,
    whatever its times, and so is a record whose normalized text is
    empty. *)
Theorem C2_dedup_keeps_first_occurrences (ss : list TranscriptSegment)
    (results : list json) :
  Forall2 encodes ss results ->
  compile_transcript results = Ok (map segment_line (first_occurrences ss)).
Proof.
  intros Hf. unfold compile_transcript.
  rewrite (transcript_loop_encoded ss results ∅ [] Hf).
  rewrite (keep_new_first_occurrences [] ∅ ss seen_of_nil). reflexivity.
Qed.

End Dedup.

(** ** Stripping *)

Lemma lstrip_chars_head l :
  match lstrip_chars l with
  | [] => True
  | a :: _ => py_isspace a = false
  end.
Proof.
  induction l as [|a l IH]; simpl; [exact I|].
  destruct (py_isspace a) eqn:Ha; [exact IH | exact Ha].
Qed.

Lemma lstrip_chars_fixed l :
  match l with [] => True | a :: _ => py_isspace a = false end ->
  lstrip_chars l = l.
Proof. destruct l as [|a l]; simpl; [reflexivity|]. intros ->. reflexivity. Qed.

Lemma lstrip_chars_idem l : lstrip_chars (lstrip_chars l) = lstrip_chars l.
Proof. apply lstrip_chars_fixed, lstrip_chars_head. Qed.

(** Stripping on the left leaves a suffix. *)
Lemma lstrip_chars_suffix l : exists sp, l = sp ++ lstrip_chars l.
Proof.
  induction l as [|a l [sp IH]]; simpl.
  - exists []. reflexivity.
  - destruct (py_isspace a).
    + exists (a :: sp). simpl. f_equal. exact IH.
    + exists []. reflexivity.
Qed.

(** Stripping on the right leaves a prefix. *)
Lemma rstrip_chars_prefix l : exists sp, l = rstrip_chars l ++ sp.
Proof.
  unfold rstrip_chars. destruct (lstrip_chars_suffix (rev l)) as [sp Hsp].
  exists (rev sp). rewrite <- rev_app_distr, <- Hsp, rev_involutive.
  reflexivity.
Qed.

Lemma rstrip_chars_idem l : rstrip_chars (rstrip_chars l) = rstrip_chars l.
Proof.
  unfold rstrip_chars. rewrite rev_involutive, lstrip_chars_idem. reflexivity.
Qed.

Lemma rstrip_chars_head l :
  match l with [] => True | a :: _ => py_isspace a = false end ->
  match rstrip_chars l with [] => True | a :: _ => py_isspace a = false end.
Proof.
  intros Hl. destruct (rstrip_chars_prefix l) as [sp Hsp].
  destruct (rstrip_chars l) as [|a r]; [exact I|].
  rewrite Hsp in Hl. exact Hl.
Qed.

(** [s.strip().strip() == s.strip()] *)
Lemma py_strip_idem s : py_strip (py_strip s) = py_strip s.
Proof.
  unfold py_strip. rewrite list_ascii_of_string_of_list_ascii.
  rewrite (lstrip_chars_fixed (rstrip_chars _)).
  - rewrite rstrip_chars_idem. reflexivity.
  - apply rstrip_chars_head, lstrip_chars_head.
Qed.

(** ** The transcript and the report *)

Section Report.
Context `{PyFloat}.

Lemma line_from_cons seg results line :
  line_from results line -> line_from (seg :: results) line.
Proof.
  intros (seg' & start & end_ & text & Hin & Ht & Hne & Hs & Hl).
  exists seg', start, end_, text. repeat split; try assumption.
  apply elem_of_cons. right. exact Hin.
Qed.

Lemma py_strip_val_fixed v text : py_strip_val v = Ok text -> py_strip text = text.
Proof.
  destruct v; try discriminate. simpl. intros [= <-]. apply py_strip_idem.
Qed.

Lemma transcript_loop_lines results seen lines0 lines :
  transcript_loop results seen lines0 = Ok lines ->
  exists new, lines = lines0 ++ new /\ Forall (line_from results) new.
Proof.
  revert seen lines0. induction results as [|seg results IH];
    intros seen lines0 Hrun.
  - injection Hrun as <-. exists []. split; [symmetry; apply app_nil_r|].
    constructor.
  - cbn [transcript_loop] in Hrun.
    destruct (py_get seg "text" (JStr "")) as [t|] eqn:Hget; [|discriminate].
    cbn [mbind result_bind] in Hrun.
    destruct (py_strip_val t) as [text|] eqn:Hstrip; [|discriminate].
    cbn [mbind result_bind] in Hrun.
    destruct (bool_decide (text ≠ "")) eqn:Hne; cbn [andb] in Hrun.
    2:{ destruct (IH _ _ Hrun) as (new & -> & Hnew). exists new.
        split; [reflexivity|].
        eapply Forall_impl; [exact Hnew | intros; by apply line_from_cons]. }
    destruct (bool_decide (text ∉ seen)).
    2:{ destruct (IH _ _ Hrun) as (new & -> & Hnew). exists new.
        split; [reflexivity|].
        eapply Forall_impl; [exact Hnew | intros; by apply line_from_cons]. }
    destruct (py_get seg "start" (JInt 0)) as [vs|]; [|discriminate].
    cbn [mbind result_bind] in Hrun.
    destruct (py_float vs) as [start|]; [|discriminate].
    cbn [mbind result_bind] in Hrun.
    destruct (py_get seg "end" (JInt 0)) as [ve|]; [|discriminate].
    cbn [mbind result_bind] in Hrun.
    destruct (py_float ve) as [end_|]; [|discriminate].
    cbn [mbind result_bind] in Hrun.
    destruct (IH _ _ Hrun) as (new & -> & Hnew).
    exists (format_line start end_ text :: new). split.
    + rewrite <- app_assoc. reflexivity.
    + constructor.
      * exists seg, start, end_, text. repeat split.
        -- apply elem_of_cons. left. reflexivity.
        -- rewrite Hget. cbn [mbind result_bind]. exact Hstrip.
        -- apply bool_decide_eq_true_1 in Hne. exact Hne.
        -- eapply py_strip_val_fixed, Hstrip.
      * eapply Forall_impl; [exact Hnew | intros; by apply line_from_cons].
Qed.

(** C10.  A received segment whose text is empty or only whitespace is
    appended to [results] like any other (and nothing else about the
    collector changes), but it gives no transcript line: every line of the
    transcript carries the stripped text of some record of [results], and
    that text is not empty. *)
Theorem C10_blank_segments_collected_not_written :
  (forall (s : TranscriptSegment) (j : json) (st : receiver_state),
      encodes s j -> normalized_text s = "" ->
      handle_segment j st = (appended j st, None)
      /\ results (appended j st) = results st ++ [j])
  /\ (forall (results : list json) (lines : list string),
      compile_transcript results = Ok lines ->
      Forall (line_from results) lines).
Proof.
  split.
  - intros s j st Hj Hblank. split; [|reflexivity].
    exact (handle_segment_blank s j st Hj Hblank).
  - intros results lines Hrun.
    destruct (transcript_loop_lines results ∅ [] lines Hrun)
      as (new & -> & Hnew).
    exact Hnew.
Qed.

(** What [main] does once [run_transcription] has returned [s]. *)
Lemma main_after_session a timestamp w net s :
  run_transcription a w net = Ok s ->
  main a timestamp w net
  = match compile_transcript (returned s).1.1 with
    | Raise e => {| m_session := Some s; m_file := None; m_raised := Some e |}
    | Ok transcript_lines =>
      {| m_session := Some s;
         m_file := Some (results_path a timestamp,
                         (write_report a (returned s).2 (returned s).1.2
                            transcript_lines).1);
         m_raised := (write_report a (returned s).2 (returned s).1.2
                        transcript_lines).2 |}
    end.
Proof.
  intros Hs. unfold main. rewrite Hs.
  destruct (returned s) as [[results total_time] audio_duration].
  cbn [fst snd]. destruct (compile_transcript results); [|reflexivity].
  destruct (write_report _ _ _ _). reflexivity.
Qed.


End Report.

(** ** The session *)

Section SessionFacts.
Context `{PyFloat}.

Lemma send_calls_app (a b : list event) :
  send_calls (a ++ b) = send_calls a ++ send_calls b.
Proof. apply omap_app. Qed.

Lemma sender_loop_calls audio T offs c sent :
  Forall is_frame (send_calls (s_events (sender_loop audio T offs c sent))).
Proof.
  revert c sent. induction offs as [|i offs IH]; intros c sent.
  - constructor.
  - cbn [sender_loop]. destruct (conn_open c).
    + destruct (decide (T = 0)).
      * repeat constructor.
      * cbn [s_events]. change (?x :: ?l ++ ?y :: ?r) with ([x] ++ l ++ [y] ++ r).
        rewrite !send_calls_app. repeat apply Forall_app_2.
        -- repeat constructor.
        -- destruct (decide _); repeat constructor.
        -- constructor.
        -- apply IH.
    + repeat constructor.
Qed.

Lemma sender_calls audio c :
  Forall is_frame (send_calls (s_events (sender audio c))).
Proof.
  unfold sender.
  pose proof (sender_loop_calls audio
                (Z.of_nat (length audio) / chunk_samples)
                (py_range 0 (Z.of_nat (length audio)) chunk_samples) c 0) as Hl.
  destruct (s_raised _); [exact Hl|].
  cbn [s_events]. rewrite send_calls_app. apply Forall_app_2; [exact Hl|].
  constructor.
Qed.

(** C8.  In a run that opens the connection, [ws.send] is called with the
    configuration exactly once, and that call is the first: every other
    call carries a chunk of audio, and a chunk is sent only after the
    configuration has been accepted.  A run that cannot connect sends
    nothing. *)
Theorem C8_config_sent_once_before_audio (a : argv) (w : wav) (net : network)
    (s : session) :
  run_transcription a w net = Ok s ->
  match connect_error net with
  | Some _ => send_calls (out_events s) = []
  | None =>
    exists rest,
      send_calls (out_events s) = PText (config a) :: rest
      /\ Forall is_frame rest
      /\ (rest ≠ [] -> head (out_events s) = Some (SendOk (PText (config a))))
  end.
Proof.
  unfold run_transcription. destruct (decide (framerate w = 0)); [discriminate|].
  destruct (connect_error net) as [e|].
  - intros [= <-]. reflexivity.
  - destruct (conn_open (sends net)); intros [= <-]; cbn [out_events].
    + exists (send_calls (s_events (sender (pcm w) (conn_next (sends net))))).
      split; [|split].
      * change (?x :: ?y :: ?l ++ ?r) with ([x; y] ++ l ++ r).
        rewrite !send_calls_app.
        destruct (s_raised _); cbn; rewrite app_nil_r; reflexivity.
      * apply sender_calls.
      * reflexivity.
    + exists []. split; [reflexivity|]. split; [constructor|].
      intros Hne. contradiction.
Qed.

End SessionFacts.

Section SessionClaims.
Context `{PyFloatLaws}.

Lemma run_transcription_returns a w net :
  framerate w ≠ 0 ->
  exists s,
    run_transcription a w net = Ok s
    /\ (returned s).2 = true_div (n_frames w) (framerate w)
    /\ (returned s).1.1
       = (if decide (connect_error net = None /\ conn_open (sends net) = true)
          then results (receiver (inbox net)) else []).
Proof.
  intros Hr. unfold run_transcription.
  destruct (decide (framerate w = 0)); [contradiction|].
  destruct (connect_error net) as [e|] eqn:Hc.
  - eexists. split; [reflexivity|]. split; [reflexivity|].
    cbn [returned fst]. case_decide as Hd; [|reflexivity].
    destruct Hd as [? _]. discriminate.
  - destruct (conn_open (sends net)) eqn:Ho.
    + eexists. split; [reflexivity|]. split; [reflexivity|].
      cbn [returned fst]. case_decide as Hd; [reflexivity|].
      exfalso. apply Hd. split; reflexivity.
    + eexists. split; [reflexivity|]. split; [reflexivity|].
      cbn [returned fst]. case_decide as Hd; [|reflexivity].
      destruct Hd as [_ ?]. discriminate.
Qed.

(** With no segment received and an audio file of at least one frame the
    report is written to its end: the header counts 0 unique segments and
    the body is empty. *)
Lemma empty_results_report a timestamp w net :
  wav_ok w -> 0 < n_frames w ->
  results (receiver (inbox net)) = [] ->
  exists s,
    main a timestamp w net
    = {| m_session := Some s;
         m_file := Some (results_path a timestamp,
                         report_head a (returned s).2 (returned s).1.2
                         ++ [ "Real-time factor: "
                                +:+ fmt 2 (fdiv (returned s).1.2 (returned s).2)
                                +:+ "x" +:+ nl;
                              "Unique segments: 0" +:+ nl;
                              rule +:+ nl +:+ nl;
                              "" ]);
         m_raised := None |}.
Proof.
  intros (Hrate & Hn & _) Hpos Hres.
  destruct (run_transcription_returns a w net ltac:(lia)) as (s & Hs & Hd & Hr).
  exists s. rewrite (main_after_session a timestamp w net s Hs).
  assert ((returned s).1.1 = []) as ->
    by (rewrite Hr; case_decide; [exact Hres | reflexivity]).
  cbn [compile_transcript transcript_loop]. unfold write_report.
  rewrite Hd, true_div_nonzero by lia. reflexivity.
Qed.

(** C4.  When the audio file holds no frame, [audio_duration] is zero:
    with no segment received, [main] opens the report, writes the first
    five lines of its header and raises [ZeroDivisionError] on the
    real-time factor.  The "Unique segments" line and the body are not
    written, and the exception escapes. *)
Theorem C4_empty_audio_report_raises (a : argv) (timestamp : string)
    (w : wav) (net : network) :
  wav_ok w -> n_frames w = 0 ->
  results (receiver (inbox net)) = [] ->
  exists s,
    main a timestamp w net
    = {| m_session := Some s;
         m_file := Some (results_path a timestamp,
                         report_head a (returned s).2 (returned s).1.2);
         m_raised := Some ZeroDivisionError |}.
Proof.
  intros (Hrate & _ & _) Hzero Hres.
  destruct (run_transcription_returns a w net ltac:(lia)) as (s & Hs & Hd & Hr).
  exists s. rewrite (main_after_session a timestamp w net s Hs).
  assert ((returned s).1.1 = []) as ->
    by (rewrite Hr; case_decide; [exact Hres | reflexivity]).
  cbn [compile_transcript transcript_loop]. unfold write_report.
  rewrite Hd, Hzero, true_div_zero by lia. reflexivity.
Qed.

Lemma chunks_nil : chunks [] = [].
Proof. reflexivity. Qed.

Lemma sender_loop_open_calls audio T offs sent :
  T ≠ 0 ->
  send_calls (s_events (sender_loop audio T offs None sent))
  = map PBinary (map (fun i => py_slice audio i (i + chunk_samples)) offs).
Proof.
  intros HT. revert sent. induction offs as [|j l IH]; intros sent;
    [reflexivity|].
  cbn [sender_loop conn_open conn_next].
  destruct (decide (T = 0)) as [|_]; [contradiction|].
  cbn [s_events].
  change (?x :: ?st ++ ?y :: ?r) with ([x] ++ st ++ [y] ++ r).
  rewrite !send_calls_app, IH.
  destruct (decide _); reflexivity.
Qed.

(** The feeder on a connection that accepts [K] chunks, for [K] less than
    the number of chunks of the buffer. *)
Lemma sender_closed audio (K : nat) :
  (K < length (chunks audio))%nat ->
  exists pre ch,
    sender audio (Some K)
    = {| s_events := pre ++ [SendClosed (PBinary ch);
                             Print (LConnectionClosed (Z.of_nat K));
                             Print (LFinished (Z.of_nat K));
                             Sleep 10000; SetDone];
         s_chunks_sent := Z.of_nat K;
         s_raised := None |}
    /\ frames_sent pre = take K (chunks audio)
    /\ send_calls pre = map PBinary (take K (chunks audio))
    /\ chunks audio !! K = Some ch.
Proof.
  intros HK. unfold chunks in HK |- *. rewrite length_map in HK.
  set (L := Z.of_nat (length audio)) in *.
  set (offs := py_range 0 L chunk_samples) in *.
  destruct (lookup_lt_is_Some_2 offs K HK) as [i Hi].
  assert (L / chunk_samples ≠ 0 \/ K = 0%nat) as HT.
  { destruct (decide (L / chunk_samples = 0)) as [HT|HT]; [right|left; exact HT].
    assert (0 <= L < chunk_samples) as HL.
    { apply Z.div_small_iff in HT; rewrite chunk_samples_eq in *; lia. }
    subst offs. rewrite py_range_small in HK by exact HL.
    destruct (decide (L = 0)); simpl in HK; lia. }
  exists (s_events (sender_loop audio (L / chunk_samples) (take K offs) None 0)),
    (py_slice audio i (i + chunk_samples)).
  split; [|split; [|split]].
  - unfold sender. fold L offs.
    rewrite (sender_loop_closed audio _ offs K 0 i HT Hi).
    cbn [s_raised s_events s_chunks_sent]. rewrite Z.add_0_l.
    rewrite <- app_assoc. reflexivity.
  - rewrite <- fmap_take. destruct HT as [HT| ->].
    + apply (sender_loop_open audio _ (take K offs) 0 HT).
    + reflexivity.
  - rewrite <- fmap_take. destruct HT as [HT| ->]; [|reflexivity].
    apply sender_loop_open_calls, HT.
  - rewrite list_lookup_fmap, Hi. reflexivity.
Qed.

(** C5.  When the connection accepts the configuration and [K] chunks, for
    [K] less than the number of chunks of the buffer, and then closes: the
    feeder sends those [K] chunks, fails on the next one and sends nothing
    more; it prints [K] as the number of chunks sent; it still waits the
    10 s of the grace period and then sets [receive_done]; it raises
    nothing.  With transcript segments collected, [main] writes the whole
    report and no exception escapes. *)
Theorem C5_connection_closed_midstream (a : argv) (timestamp : string)
    (w : wav) (net : network) (K : nat) (ss : list TranscriptSegment) :
  wav_ok w ->
  connect_error net = None ->
  sends net = Some (S K) ->
  (K < length (chunks (pcm w)))%nat ->
  Forall2 encodes ss (results (receiver (inbox net))) ->
  exists pre ch s,
    sender (pcm w) (Some K)
    = {| s_events := pre ++ [SendClosed (PBinary ch);
                             Print (LConnectionClosed (Z.of_nat K));
                             Print (LFinished (Z.of_nat K));
                             Sleep 10000; SetDone];
         s_chunks_sent := Z.of_nat K;
         s_raised := None |}
    /\ frames_sent pre = take K (chunks (pcm w))
    /\ send_calls pre = map PBinary (take K (chunks (pcm w)))
    /\ chunks (pcm w) !! K = Some ch
    /\ out_events s
       = SendOk (PText (config a)) :: Print (LSentConfig (config a))
         :: s_events (sender (pcm w) (Some K))
    /\ main a timestamp w net
       = {| m_session := Some s;
            m_file :=
              Some (results_path a timestamp,
                    report_head a (returned s).2 (returned s).1.2
                    ++ report_tail (returned s).2 (returned s).1.2
                         (map segment_line (first_occurrences ss)));
            m_raised := None |}.
Proof.
  intros (Hrate & Hn & Hpcm) Hconn Hsends HK Hss.
  destruct (sender_closed (pcm w) K HK) as (pre & ch & Hsender & Hf & Hc & Hch).
  assert (0 < n_frames w) as Hpos.
  { destruct (decide (n_frames w = 0)) as [Hz|]; [|lia].
    rewrite (Hpcm Hz), chunks_nil in HK. simpl in HK. lia. }
  set (s := {| out_events :=
                 SendOk (PText (config a)) :: Print (LSentConfig (config a))
                 :: s_events (sender (pcm w) (Some K));
               collected := receiver (inbox net);
               returned := (results (receiver (inbox net)),
                            fsub (end_time net) (start_time net),
                            true_div (n_frames w) (framerate w)) |}).
  assert (run_transcription a w net = Ok s) as Hs.
  { unfold run_transcription, s.
    destruct (decide (framerate w = 0)); [lia|].
    rewrite Hconn, Hsends. cbn [conn_open conn_next].
    rewrite Hsender. cbn [s_raised s_events]. rewrite app_nil_r. reflexivity. }
  exists pre, ch, s. split; [exact Hsender|].
  split; [exact Hf|]. split; [exact Hc|]. split; [exact Hch|].
  split; [reflexivity|].
  rewrite (main_after_session a timestamp w net _ Hs).
  cbn [s returned fst snd].
  rewrite (compile_transcript_encoded ss _ Hss).
  unfold write_report. rewrite true_div_nonzero by lia. reflexivity.
Qed.

End SessionClaims.

(** ** The instance satisfies the laws *)

Module ExactFacts.

Import QArith_base Exact.
#[local] Close Scope Q_scope.
#[local] Open Scope Z_scope.

Lemma true_div_Q_nonzero (n m : Z) :
  0 < n -> 0 < m -> (Qnum (true_div_Q n m) =? 0) = false.
Proof.
  intros Hn Hm. apply Z.eqb_neq.
  unfold true_div_Q, Qdiv, Qmult, Qinv, inject_Z. simpl.
  destruct m as [|p|p]; try lia. simpl. lia.
Qed.

Lemma true_div_Q_zero (m : Z) : (Qnum (true_div_Q 0 m) =? 0) = true.
Proof. reflexivity. Qed.

#[global] Instance exact_float_laws : PyFloatLaws.
Proof.
  constructor.
  - intros m _. apply true_div_Q_zero.
  - intros n m [Hn _] [Hm _]. apply true_div_Q_nonzero; assumption.
Qed.

End ExactFacts.

(** * Concrete runs *)

Section ConcreteRuns.
Import Exact Runs.

(** C1, counterexample.  A buffer of 2400 samples has [2400 // 1600 = 1],
    yet the feeder transmits two chunks: the second one holds the trailing
    800 samples. *)
Lemma C1_counterexample :
  Z.of_nat (length (replicate 2400 (7 : sample))) / chunk_samples = 1
  /\ frames_sent (s_events (sender (replicate 2400 7) None))
     = [replicate 1600 7; replicate 800 7].
Proof. split; vm_compute; reflexivity. Qed.

(** A total of 25 chunks: the progress line is printed at the sent counts
    that 3 divides. *)
Example cadence_25 :
  Z.of_nat (length (replicate (Z.to_nat 40000) (0 : sample))) / chunk_samples
  = 25
  /\ progress_marks 0
       (s_events (sender (replicate (Z.to_nat 40000) 0) None))
     = [3; 6; 9; 12; 15; 18; 21; 24].
Proof. split; vm_compute; reflexivity. Qed.

(** C2, counterexample.  A record whose text is only whitespace is the
    first one with its normalized text, the empty string, and the
    deduplication does not keep it. *)
Lemma C2_counterexample :
  first_of_each_text [blank] = [blank]
  /\ compile_transcript [to_json blank] = Ok [].
Proof. split; vm_compute; reflexivity. Qed.

(** C2, witness. *)
Lemma C2_witness :
  compile_transcript (map to_json [hello; hello_again; blank; bye])
  = Ok (map segment_line (first_occurrences [hello; hello_again; blank; bye])).
Proof.
  apply (C2_dedup_keeps_first_occurrences [hello; hello_again; blank; bye]).
  apply encodes_map_to_json.
Defined.

(** C3, witness: a buffer of 800 samples. *)
Lemma C3_witness :
  Z.of_nat (length (replicate 800 (0 : sample))) / chunk_samples = 0
  /\ sender (replicate 800 0) None
     = {| s_events := [SendOk (PBinary (replicate 800 0))];
          s_chunks_sent := 1;
          s_raised := Some ZeroDivisionError |}
  /\ progress_marks 0 (s_events (sender (replicate 800 0) None)) = []
  /\ 1 mod (Z.of_nat (length (replicate 800 (0 : sample)))
            / chunk_samples / 10 + 1) = 0.
Proof.
  apply (C3_short_buffer_raises (replicate 800 0));
    rewrite length_replicate; [lia | rewrite chunk_samples_eq; lia].
Defined.

(** C4, witness: an audio file of no frame and a server that sends
    nothing. *)
Lemma C4_witness :
  exists s,
    main args "20260101-000000" no_audio (silent_server None)
    = {| m_session := Some s;
         m_file := Some (results_path args "20260101-000000",
                         report_head args (returned s).2 (returned s).1.2);
         m_raised := Some ZeroDivisionError |}.
Proof.
  apply (C4_empty_audio_report_raises args "20260101-000000" no_audio
           (silent_server None)).
  - unfold wav_ok. simpl. split; [lia|]. split; [lia|]. reflexivity.
  - reflexivity.
  - reflexivity.
Defined.

(** C5, witness: the connection accepts the configuration and one chunk of
    the three. *)
Lemma C5_witness :
  exists pre ch s,
    sender (pcm quarter_second) (Some 1%nat)
    = {| s_events := pre ++ [SendClosed (PBinary ch);
                             Print (LConnectionClosed (Z.of_nat 1));
                             Print (LFinished (Z.of_nat 1));
                             Sleep 10000; SetDone];
         s_chunks_sent := Z.of_nat 1;
         s_raised := None |}
    /\ frames_sent pre = take 1 (chunks (pcm quarter_second))
    /\ send_calls pre = map PBinary (take 1 (chunks (pcm quarter_second)))
    /\ chunks (pcm quarter_second) !! 1%nat = Some ch
    /\ out_events s
       = SendOk (PText (config args)) :: Print (LSentConfig (config args))
         :: s_events (sender (pcm quarter_second) (Some 1%nat))
    /\ main args "20260101-000000" quarter_second (talking_server (Some 2%nat))
       = {| m_session := Some s;
            m_file :=
              Some (results_path args "20260101-000000",
                    report_head args (returned s).2 (returned s).1.2
                    ++ report_tail (returned s).2 (returned s).1.2
                         (map segment_line
                            (first_occurrences
                               [hello; hello_again; blank; bye])));
            m_raised := None |}.
Proof.
  apply (C5_connection_closed_midstream args "20260101-000000"
           quarter_second (talking_server (Some 2%nat)) 1
           [hello; hello_again; blank; bye]).
  - unfold wav_ok. simpl. split; [lia|]. split; [lia|]. intros; lia.
  - reflexivity.
  - reflexivity.
  - vm_compute. lia.
  - change (results (receiver (inbox (talking_server (Some 2%nat)))))
      with (map to_json [hello; hello_again; blank; bye]).
    apply encodes_map_to_json.
Defined.

(** C6, counterexample.  After a message that cannot be parsed the next
    message, a batch of one segment, is not received: had the loop gone on,
    [results] would hold that segment. *)
Lemma C6_counterexample :
  results (receiver [RecvMsg (Raise JSONDecodeError);
                     RecvMsg (Ok (batch [hello]))]) = []
  /\ r_log (receiver [RecvMsg (Raise JSONDecodeError);
                      RecvMsg (Ok (batch [hello]))])
     = [LReceiverError JSONDecodeError]
  /\ results (receiver [RecvMsg (Ok (batch [hello]))]) = [to_json hello].
Proof. repeat split. Qed.


(** C8, witness. *)
Lemma C8_witness :
  exists s,
    run_transcription args quarter_second (talking_server None) = Ok s
    /\ exists rest,
        send_calls (out_events s) = PText (config args) :: rest
        /\ Forall is_frame rest
        /\ (rest ≠ [] ->
            head (out_events s) = Some (SendOk (PText (config args)))).
Proof.
  eexists. split; [reflexivity|].
  apply (C8_config_sent_once_before_audio args quarter_second
           (talking_server None)).
  reflexivity.
Defined.


(** C10, witness. *)
Lemma C10_witness :
  (handle_segment (to_json blank) receiver_init
   = (appended (to_json blank) receiver_init, None)
   /\ results (appended (to_json blank) receiver_init)
      = results receiver_init ++ [to_json blank])
  /\ Forall (line_from (map to_json [hello; blank; bye]))
       (map segment_line [hello; bye]).
Proof.
  split.
  - apply (proj1 C10_blank_segments_collected_not_written blank).
    + apply encodes_to_json.
    + reflexivity.
  - apply (proj2 C10_blank_segments_collected_not_written).
    vm_compute. reflexivity.
Defined.

End ConcreteRuns.

(** * Further properties *)

(** ** The feeder on any connection *)

Section FeederAnyConnection.
Context `{PyFloat}.

Lemma accepted_next c n :
  conn_open c = true -> accepted c (S n) = S (accepted (conn_next c) n).
Proof. destruct c as [[|k]|]; simpl; intros; (discriminate || lia). Qed.

Lemma accepted_closed c n : conn_open c = false -> accepted c n = 0%nat.
Proof. destruct c as [[|k]|]; simpl; intros; (discriminate || lia). Qed.

(** The loop on any connection, for a nonzero [total_chunks]. *)
Lemma sender_loop_any audio T offs c sent :
  T ≠ 0 ->
  let r := sender_loop audio T offs c sent in
  frames_sent (s_events r)
  = map (fun i => py_slice audio i (i + chunk_samples))
        (take (accepted c (length offs)) offs)
  /\ s_raised r = None
  /\ s_chunks_sent r = sent + Z.of_nat (accepted c (length offs))
  /\ progress_marks sent (s_events r)
     = filter (fun k => k mod (T / 10 + 1) = 0)
         (map (fun j : nat => sent + 1 + Z.of_nat j)
              (seq 0 (accepted c (length offs))))
  /\ SetDone ∉ s_events r.
Proof.
  intros HT. revert c sent. induction offs as [|i offs IH]; intros c sent.
  - cbn. replace (accepted c 0) with 0%nat by (destruct c; simpl; lia).
    repeat split; [lia | apply not_elem_of_nil].
  - cbn [sender_loop length]. destruct (conn_open c) eqn:Hc.
    + destruct (decide (T = 0)) as [|_]; [contradiction|].
      rewrite (accepted_next c _ Hc).
      destruct (IH (conn_next c) (sent + 1)) as (IH1 & IH2 & IH3 & IH4 & IH5).
      cbn [s_events s_raised s_chunks_sent take map]. repeat split.
      * cbn [frames_sent omap list_omap].
        change (omap _ ?l) with (frames_sent l).
        rewrite frames_sent_app.
        destruct (decide _); cbn [frames_sent omap list_omap app];
          change (omap _ ?l) with (frames_sent l); rewrite IH1; reflexivity.
      * exact IH2.
      * rewrite IH3. lia.
      * rewrite <- cons_seq, <- fmap_S_seq. cbn [map]. rewrite map_map.
        rewrite (map_ext _ (fun j : nat => sent + 1 + 1 + Z.of_nat j))
          by (intros; lia).
        replace (sent + 1 + Z.of_nat 0) with (sent + 1) by lia.
        cbn [progress_marks].
        destruct (decide ((sent + 1) mod (T / 10 + 1) = 0)) as [Hm|Hm].
        -- rewrite filter_cons_True by exact Hm.
           cbn [app progress_marks]. rewrite IH4. reflexivity.
        -- rewrite filter_cons_False by exact Hm.
           cbn [app progress_marks]. rewrite IH4. reflexivity.
      * intros Hin. apply elem_of_cons in Hin as [Hin|Hin]; [discriminate|].
        apply elem_of_app in Hin as [Hin|Hin].
        -- destruct (decide _); [|by apply not_elem_of_nil in Hin].
           apply list_elem_of_singleton in Hin. discriminate.
        -- apply elem_of_cons in Hin as [Hin|Hin]; [discriminate|].
           exact (IH5 Hin).
    + rewrite (accepted_closed c _ Hc). cbn. repeat split; [lia|].
      intros Hin. apply elem_of_cons in Hin as [Hin|Hin]; [discriminate|].
      apply list_elem_of_singleton in Hin. discriminate.
Qed.

End FeederAnyConnection.

Section FeederOutcome.
Context `{PyFloat}.

Lemma div_succ (n m : Z) :
  0 <= n -> 0 < m ->
  (n + 1) / m = n / m + (if decide ((n + 1) mod m = 0) then 1 else 0).
Proof.
  intros Hn Hm.
  pose proof (Z.div_mod n m ltac:(lia)) as Hdm.
  pose proof (Z.mod_pos_bound n m Hm) as Hb.
  destruct (decide (n mod m + 1 = m)) as [Hr|Hr].
  - assert ((n + 1) mod m = 0) as H0.
    { symmetry. apply (Z.mod_unique_pos _ _ (n / m + 1)); lia. }
    rewrite H0. destruct (decide (0 = 0)); [|contradiction].
    symmetry. apply (Z.div_unique_pos _ _ _ 0); lia.
  - assert ((n + 1) mod m = n mod m + 1) as H1.
    { symmetry. apply (Z.mod_unique_pos _ _ (n / m)); lia. }
    rewrite H1. destruct (decide (n mod m + 1 = 0)); [lia|].
    symmetry. apply (Z.div_unique_pos _ _ _ (n mod m + 1)); lia.
Qed.

(** Among the sent counts [1 .. n], [n // m] are multiples of [m]. *)
Lemma count_multiples (m : Z) (n : nat) :
  0 < m ->
  Z.of_nat (length (filter (fun k => k mod m = 0)
                      (map (fun j : nat => 0 + 1 + Z.of_nat j) (seq 0 n))))
  = Z.of_nat n / m.
Proof.
  intros Hm. induction n as [|n IH].
  - simpl. rewrite Z.div_0_l by lia. reflexivity.
  - rewrite seq_S, map_app, filter_app, length_app, Nat2Z.inj_add, IH.
    cbn [map]. replace (Z.of_nat (S n)) with (Z.of_nat n + 1) by lia.
    rewrite (div_succ (Z.of_nat n) m) by lia.
    replace (0 + 1 + Z.of_nat (0 + n)) with (Z.of_nat n + 1) by lia.
    destruct (decide ((Z.of_nat n + 1) mod m = 0)) as [Hd|Hd].
    + rewrite filter_cons_True by exact Hd. reflexivity.
    + rewrite filter_cons_False by exact Hd. reflexivity.
Qed.

Lemma length_chunks (audio : list sample) :
  Z.of_nat (length (chunks audio))
  = Z.of_nat (length audio) / chunk_samples
    + (if decide (Z.of_nat (length audio) mod chunk_samples = 0)
       then 0 else 1).
Proof.
  rewrite chunks_chunk_at, length_map, length_seq.
  rewrite range_count by (rewrite ?chunk_samples_eq; lia).
  rewrite chunk_samples_eq.
  pose proof (Z.div_pos (Z.of_nat (length audio)) 1600 ltac:(lia) ltac:(lia)).
  destruct (decide _); lia.
Qed.

(** A buffer with [total_chunks = 0]: its range has no offset or one. *)
Lemma short_buffer_range (audio : list sample) :
  Z.of_nat (length audio) / chunk_samples = 0 ->
  py_range 0 (Z.of_nat (length audio)) chunk_samples
  = if decide (Z.of_nat (length audio) = 0) then [] else [0].
Proof.
  intros HT. apply py_range_small.
  apply Z.div_small_iff in HT; rewrite chunk_samples_eq in *; lia.
Qed.

Lemma py_slice_whole (audio : list sample) :
  Z.of_nat (length audio) < chunk_samples ->
  py_slice audio 0 (0 + chunk_samples) = audio.
Proof.
  intros Hlt. unfold py_slice. rewrite drop_0, take_ge; [reflexivity|].
  rewrite chunk_samples_eq in *. lia.
Qed.

(** X1.  On any connection the feeder transmits the chunks of the buffer in
    order and without a gap, as many as the connection accepts, and
    [chunks_sent] ends as their number. *)
Theorem sender_frames_any_connection (audio : list sample) (c : conn) :
  frames_sent (s_events (sender audio c))
  = take (accepted c (length (chunks audio))) (chunks audio)
  /\ s_chunks_sent (sender audio c)
     = Z.of_nat (accepted c (length (chunks audio))).
Proof.
  unfold sender, chunks.
  set (L := Z.of_nat (length audio)).
  destruct (decide (L / chunk_samples = 0)) as [HT|HT].
  - pose proof (short_buffer_range audio HT) as Hrange. fold L in Hrange.
    rewrite HT, Hrange.
    destruct (decide (L = 0)).
    + destruct c as [[|k]|]; split; reflexivity.
    + destruct c as [[|[|k]]|]; split; reflexivity.
  - rewrite length_map.
    destruct (sender_loop_any audio (L / chunk_samples)
                (py_range 0 L chunk_samples) c 0 HT) as (Hf & Hr & Hs & _).
    cbv zeta in Hf, Hr, Hs. rewrite Hr. cbn [s_events s_chunks_sent].
    rewrite frames_sent_app, Hf, Hs, fmap_take. simpl.
    rewrite app_nil_r. split; [reflexivity | lia].
Qed.

(** X2.  The feeder raises exactly when the buffer is not empty, is shorter
    than one chunk, and the connection accepts a send: the only chunk is
    sent and [ZeroDivisionError] follows.  In every other case it raises
    nothing and ends with its final line, the 10 s of the grace period and
    [receive_done.set()], which it calls at no other point. *)
Theorem sender_sets_done_unless_it_raises (audio : list sample) (c : conn) :
  let L := Z.of_nat (length audio) in
  if Z.ltb 0 L && Z.ltb L chunk_samples && conn_open c
  then sender audio c
       = {| s_events := [SendOk (PBinary audio)];
            s_chunks_sent := 1;
            s_raised := Some ZeroDivisionError |}
  else s_raised (sender audio c) = None
       /\ exists pre,
           s_events (sender audio c)
           = pre ++ [Print (LFinished (s_chunks_sent (sender audio c)));
                     Sleep 10000; SetDone]
           /\ SetDone ∉ pre.
Proof.
  intros L. unfold sender. fold L.
  destruct (decide (L / chunk_samples = 0)) as [HT|HT].
  - pose proof (short_buffer_range audio HT) as Hrange. fold L in Hrange.
    rewrite HT, Hrange.
    assert (0 <= L < chunk_samples) as HL.
    { apply Z.div_small_iff in HT; rewrite chunk_samples_eq in *; lia. }
    destruct (decide (L = 0)) as [H0|H0].
    + replace (Z.ltb 0 L) with false by (symmetry; apply Z.ltb_ge; lia).
      cbn. split; [reflexivity|]. exists []. split; [reflexivity|].
      apply not_elem_of_nil.
    + replace (Z.ltb 0 L) with true by (symmetry; apply Z.ltb_lt; lia).
      replace (Z.ltb L chunk_samples) with true
        by (symmetry; apply Z.ltb_lt; lia).
      cbn [andb sender_loop]. destruct (conn_open c).
      * destruct (decide (0 = 0)); [|contradiction].
        cbn. rewrite py_slice_whole by (fold L; lia). reflexivity.
      * cbn. split; [reflexivity|].
        exists [SendClosed (PBinary (py_slice audio 0 (0 + chunk_samples)));
                Print (LConnectionClosed 0)].
        split; [reflexivity|].
        intros Hin. apply elem_of_cons in Hin as [Hin|Hin]; [discriminate|].
        apply list_elem_of_singleton in Hin. discriminate.
  - replace (Z.ltb 0 L && Z.ltb L chunk_samples) with false.
    2:{ symmetry. apply andb_false_iff. right. apply Z.ltb_ge.
        destruct (Z_lt_le_dec L chunk_samples) as [Hlt|]; [|assumption].
        exfalso. apply HT, Z.div_small. lia. }
    cbn [andb].
    destruct (sender_loop_any audio (L / chunk_samples)
                (py_range 0 L chunk_samples) c 0 HT) as (_ & Hr & _ & _ & Hd).
    cbv zeta in Hr, Hd. rewrite Hr. cbn [s_raised s_events s_chunks_sent].
    split; [reflexivity|]. eexists. split; [reflexivity | exact Hd].
Qed.

(** X3.  Whatever the buffer and the connection, the feeder prints at most
    ten progress lines. *)
Theorem sender_prints_at_most_ten_progress_lines (audio : list sample)
    (c : conn) :
  (length (progress_marks 0 (s_events (sender audio c))) <= 10)%nat.
Proof.
  unfold sender.
  set (L := Z.of_nat (length audio)).
  destruct (decide (L / chunk_samples = 0)) as [HT|HT].
  - pose proof (short_buffer_range audio HT) as Hrange. fold L in Hrange.
    rewrite HT, Hrange.
    destruct (decide (L = 0)).
    + destruct c as [[|k]|]; simpl; lia.
    + destruct c as [[|k]|]; simpl; lia.
  - destruct (sender_loop_any audio (L / chunk_samples)
                (py_range 0 L chunk_samples) c 0 HT) as (_ & Hr & _ & Hm & _).
    cbv zeta in Hr, Hm. rewrite Hr. cbn [s_events].
    rewrite progress_marks_app, Hm. cbn [progress_marks].
    rewrite app_nil_r.
    assert (0 < L / chunk_samples) as Hpos.
    { pose proof (Z.div_pos L chunk_samples ltac:(lia)
                    ltac:(rewrite chunk_samples_eq; lia)). lia. }
    set (T := L / chunk_samples) in *.
    assert (0 < T / 10 + 1) as Hstep
      by (pose proof (Z.div_pos T 10 ltac:(lia) ltac:(lia)); lia).
    pose proof (count_multiples (T / 10 + 1)
                  (accepted c (length (py_range 0 L chunk_samples))) Hstep)
      as Hcount.
    assert (Z.of_nat (accepted c (length (py_range 0 L chunk_samples)))
            <= T + 1) as Hacc.
    { pose proof (length_chunks audio) as Hlen. unfold chunks in Hlen.
      rewrite length_map in Hlen. fold L T in Hlen.
      assert (accepted c (length (py_range 0 L chunk_samples))
              <= length (py_range 0 L chunk_samples))%nat
        by (destruct c; simpl; lia).
      destruct (decide _); lia. }
    assert (Z.of_nat (accepted c (length (py_range 0 L chunk_samples)))
            / (T / 10 + 1) <= 10) as Hle.
    { apply Z.div_le_upper_bound; [lia|].
      pose proof (Z.div_mod T 10 ltac:(lia)).
      pose proof (Z.mod_pos_bound T 10 ltac:(lia)). lia. }
    lia.
Qed.

End FeederOutcome.

(** ** The collector on any input *)

Section CollectorAnyInput.
Context `{PyFloat}.

Lemma handle_segment_appends seg st :
  results (handle_segment seg st).1 = results st ++ [seg].
Proof.
  unfold handle_segment.
  destruct (t ← py_get seg "text" (JStr ""); py_strip_val t); [|reflexivity].
  destruct (bool_decide _ && bool_decide _); reflexivity.
Qed.

Lemma handle_segment_log seg st :
  Forall segment_entry_ok (r_log st) ->
  Forall segment_entry_ok (r_log (handle_segment seg st).1).
Proof.
  intros Hlog. unfold handle_segment.
  destruct (t ← py_get seg "text" (JStr ""); py_strip_val t) as [text|];
    [|exact Hlog].
  destruct (bool_decide _ && bool_decide _); [|exact Hlog].
  cbn [fst r_log segment_count].
  destruct (decide _) as [Hm|]; [|exact Hlog].
  apply Forall_app_2; [exact Hlog|]. constructor; [|constructor].
  split; [exact Hm|].
  clear. generalize 60%nat. intros n. revert n.
  induction text as [|a text IH]; intros [|n]; simpl; try lia.
  specialize (IH n). simpl in IH. lia.
Qed.

Lemma handle_segments_prefix segs st :
  results st `prefix_of` results (handle_segments segs st).1
  /\ (Forall segment_entry_ok (r_log st) ->
      Forall segment_entry_ok (r_log (handle_segments segs st).1)).
Proof.
  revert st. induction segs as [|seg segs IH]; intros st.
  - split; [reflexivity | tauto].
  - cbn [handle_segments].
    pose proof (handle_segment_appends seg st) as Happ.
    pose proof (handle_segment_log seg st) as Hlog.
    destruct (handle_segment seg st) as [st1 [e|]]; cbn [fst] in *.
    + split; [|exact Hlog]. rewrite Happ. apply prefix_app_r. reflexivity.
    + destruct (IH st1) as [IHp IHl]. split.
      * etrans; [|exact IHp]. rewrite Happ. apply prefix_app_r. reflexivity.
      * intros Hl. apply IHl, Hlog, Hl.
Qed.

Lemma handle_data_prefix data st :
  results st `prefix_of` results (handle_data data st).1
  /\ (Forall segment_entry_ok (r_log st) ->
      Forall segment_entry_ok (r_log (handle_data data st).1)).
Proof.
  unfold handle_data.
  destruct (py_in "segments" data) as [[|]|]; [| |split; [reflexivity|tauto]].
  - destruct (v ← py_getitem data "segments"; py_iter v);
      [apply handle_segments_prefix | split; [reflexivity|tauto]].
  - destruct (py_in "message" data) as [[|]|];
      [| split; [reflexivity|tauto] | split; [reflexivity|tauto]].
    destruct (m ← py_getitem data "message"; low ← py_lower_val m;
              mret (m, py_contains_str "error" low)) as [[m b]|];
      [|split; [reflexivity|tauto]].
    destruct m, b; (split; [reflexivity|]); try tauto.
    intros Hl. cbn. apply Forall_app_2; [exact Hl|]. repeat constructor.
Qed.

Lemma r_print_error_log e st :
  Forall segment_entry_ok (r_log st) ->
  Forall segment_entry_ok (r_log (r_print (LReceiverError e) st)).
Proof.
  intros Hl. cbn. apply Forall_app_2; [exact Hl|]. repeat constructor.
Qed.

Lemma receiver_loop_invariants inbox st :
  results st `prefix_of` results (receiver_loop inbox st)
  /\ (Forall segment_entry_ok (r_log st) ->
      Forall segment_entry_ok (r_log (receiver_loop inbox st))).
Proof.
  revert st. induction inbox as [|r inbox IH]; intros st.
  - split; [reflexivity | tauto].
  - destruct r as [| |[data|e]]; cbn [receiver_loop].
    + apply IH.
    + split; [reflexivity | tauto].
    + destruct (handle_data_prefix data st) as [Hp Hl].
      destruct (handle_data data st) as [st1 [e|]]; cbn [fst] in *.
      * split; [exact Hp|]. intros Hlog. apply r_print_error_log, Hl, Hlog.
      * destruct (IH st1) as [IHp IHl]. split.
        -- etrans; [exact Hp | exact IHp].
        -- intros Hlog. apply IHl, Hl, Hlog.
    + split; [reflexivity|]. apply r_print_error_log.
Qed.

(** X4.  The collector only appends to [results]: whatever it receives,
    what it had collected before is a prefix of what it has collected
    afterwards. *)
Theorem receiver_only_appends (inbox : list recv_outcome)
    (st : receiver_state) :
  results st `prefix_of` results (receiver_loop inbox st).
Proof. apply receiver_loop_invariants. Qed.

(** X5.  A receive that times out changes nothing: the collector ends in
    the same state with the timeouts left out of its receives. *)
Theorem receiver_ignores_timeouts (inbox : list recv_outcome)
    (st : receiver_state) :
  receiver_loop (filter (fun r => is_timeout r = false) inbox) st
  = receiver_loop inbox st.
Proof.
  revert st. induction inbox as [|r inbox IH]; intros st; [reflexivity|].
  destruct r as [| |[data|e]].
  - rewrite filter_cons_False by (simpl; discriminate). apply IH.
  - rewrite filter_cons_True by reflexivity. reflexivity.
  - rewrite filter_cons_True by reflexivity. cbn [receiver_loop].
    destruct (handle_data data st) as [st1 [e|]]; [reflexivity | apply IH].
  - rewrite filter_cons_True by reflexivity. reflexivity.
Qed.

(** X6.  Once a receive finds the connection closed the collector stops:
    nothing that would arrive later has any effect. *)
Theorem receiver_stops_at_close (before after : list recv_outcome)
    (st : receiver_state) :
  receiver_loop (before ++ RecvClosed :: after) st = receiver_loop before st.
Proof.
  revert st. induction before as [|r before IH]; intros st; [reflexivity|].
  destruct r as [| |[data|e]]; cbn [app receiver_loop].
  - apply IH.
  - reflexivity.
  - destruct (handle_data data st) as [st1 [e|]]; [reflexivity | apply IH].
  - reflexivity.
Qed.

(** X7.  Every segment line the collector prints has a count that is one
    more than a multiple of 5 and shows at most 60 characters of text. *)
Theorem receiver_prints_every_fifth_segment (inbox : list recv_outcome) :
  Forall segment_entry_ok (r_log (receiver inbox)).
Proof. apply receiver_loop_invariants. constructor. Qed.

End CollectorAnyInput.

(** ** Server messages *)

Lemma py_lower_app (a b : string) :
  py_lower (a +:+ b) = py_lower a +:+ py_lower b.
Proof. induction a as [|x a IH]; simpl; [reflexivity|]. rewrite IH. reflexivity. Qed.

Lemma prefix_app (n post : string) : String.prefix n (n +:+ post) = true.
Proof.
  induction n as [|x n IH]; simpl.
  - destruct post; reflexivity.
  - destruct (ascii_dec x x); [exact IH | contradiction].
Qed.

Lemma py_contains_str_prefix (n hay : string) :
  String.prefix n hay = true -> py_contains_str n hay = true.
Proof.
  intros Hp. destruct hay; cbn [py_contains_str]; rewrite Hp; reflexivity.
Qed.

Lemma py_contains_str_app (n pre post : string) :
  py_contains_str n (pre +:+ n +:+ post) = true.
Proof.
  induction pre as [|x pre IH].
  - change ("" +:+ n +:+ post) with (n +:+ post).
    apply py_contains_str_prefix, prefix_app.
  - simpl. rewrite IH. apply orb_true_r.
Qed.

Section ServerMessages.
Context `{PyFloat}.

(** X8.  The error check on a server message does not depend on case: a
    record without "segments" whose "message" string contains the word
    "error" in any mix of upper and lower case gets the whole message
    printed as a server error, and the loop goes on. *)
Theorem receiver_error_check_ignores_case (o : list (string * json))
    (st : receiver_state) (inbox' : list recv_outcome)
    (pre word post : string) :
  lookup_key "segments" o = None ->
  lookup_key "message" o = Some (JStr (pre +:+ word +:+ post)) ->
  py_lower word = "error" ->
  receiver_loop (RecvMsg (Ok (JObj o)) :: inbox') st
  = receiver_loop inbox'
      (r_print (LServerError (pre +:+ word +:+ post)) st).
Proof.
  intros Hs Hm Hw. cbn [receiver_loop].
  rewrite (handle_data_message o _ st Hs Hm).
  rewrite !py_lower_app, Hw, py_contains_str_app. reflexivity.
Qed.

Lemma handle_segment_not_record bad st :
  ~ is_record bad ->
  handle_segment bad st = (appended bad st, Some AttributeError).
Proof. intros Hb. destruct bad; try reflexivity. exfalso. apply Hb. exact I. Qed.

(** X9.  A batch whose segments are transcript segments up to one element
    that is not a record: the collector appends the segments before it and
    the element itself, then ends its loop with a receiver error; the rest
    of the batch and every later message are lost. *)
Theorem receiver_keeps_the_malformed_segment (o : list (string * json))
    (st : receiver_state) (inbox' : list recv_outcome)
    (ss : list TranscriptSegment) (good rest : list json) (bad : json) :
  lookup_key "segments" o = Some (JArr (good ++ bad :: rest)) ->
  Forall2 encodes ss good ->
  ~ is_record bad ->
  exists st',
    receiver_loop (RecvMsg (Ok (JObj o)) :: inbox') st
    = r_print (LReceiverError AttributeError) st'
    /\ results st' = results st ++ good ++ [bad].
Proof.
  intros Hs Hgood Hbad. cbn [receiver_loop].
  rewrite (handle_data_segments o _ st Hs).
  assert (forall st0, exists st',
             handle_segments (good ++ bad :: rest) st0
             = (st', Some AttributeError)
             /\ results st' = results st0 ++ good ++ [bad]) as Hrun.
  { clear Hs. induction Hgood as [|s j ss good Hj _ IH]; intros st0.
    - cbn [app handle_segments].
      rewrite (handle_segment_not_record bad st0 Hbad).
      eexists. split; reflexivity.
    - destruct (handle_segment_encoded s j st0 Hj) as (st1 & H1 & R1).
      destruct (IH st1) as (st2 & H2 & R2).
      exists st2. cbn [app handle_segments]. rewrite H1. split; [exact H2|].
      rewrite R2, R1, <- app_assoc. reflexivity. }
  destruct (Hrun st) as (st' & Hh & Hr). exists st'. rewrite Hh.
  split; [reflexivity | exact Hr].
Qed.

End ServerMessages.

(** ** What [main] can raise *)

Section MainRaises.
Context `{PyFloat}.

Lemma py_float_raises v e : py_float v = Raise e -> transcript_exn e.
Proof.
  unfold transcript_exn.
  destruct v as [|b|n|x|str|l|o]; simpl;
    repeat match goal with
           | |- context [match ?x with _ => _ end] => destruct x
           end; intros [= <-]; tauto.
Qed.

Lemma py_get_raises seg key dflt e :
  py_get seg key dflt = Raise e -> transcript_exn e.
Proof. unfold transcript_exn. destruct seg; simpl; intros [= <-]; tauto. Qed.

Lemma py_strip_val_raises v e : py_strip_val v = Raise e -> transcript_exn e.
Proof. unfold transcript_exn. destruct v; simpl; intros [= <-]; tauto. Qed.

Lemma transcript_loop_raises results seen lines e :
  transcript_loop results seen lines = Raise e -> transcript_exn e.
Proof.
  revert seen lines. induction results as [|seg results IH];
    intros seen lines Hrun; [discriminate|].
  cbn [transcript_loop] in Hrun.
  destruct (py_get seg "text" (JStr "")) as [t|e1] eqn:Hget.
  2:{ injection Hrun as <-. eapply py_get_raises, Hget. }
  cbn [mbind result_bind] in Hrun.
  destruct (py_strip_val t) as [text|e1] eqn:Hstrip.
  2:{ injection Hrun as <-. eapply py_strip_val_raises, Hstrip. }
  cbn [mbind result_bind] in Hrun.
  destruct (bool_decide _ && bool_decide _); [|eapply IH, Hrun].
  destruct (py_get seg "start" (JInt 0)) as [vs|e1] eqn:Hgs.
  2:{ injection Hrun as <-. eapply py_get_raises, Hgs. }
  cbn [mbind result_bind] in Hrun.
  destruct (py_float vs) as [start|e1] eqn:Hfs.
  2:{ injection Hrun as <-. eapply py_float_raises, Hfs. }
  cbn [mbind result_bind] in Hrun.
  destruct (py_get seg "end" (JInt 0)) as [ve|e1] eqn:Hge.
  2:{ injection Hrun as <-. eapply py_get_raises, Hge. }
  cbn [mbind result_bind] in Hrun.
  destruct (py_float ve) as [end_|e1] eqn:Hfe.
  2:{ injection Hrun as <-. eapply py_float_raises, Hfe. }
  cbn [mbind result_bind] in Hrun. eapply IH, Hrun.
Qed.

Lemma transcript_loop_not_record results seen lines bad :
  bad ∈ results -> ~ is_record bad ->
  exists e, transcript_loop results seen lines = Raise e.
Proof.
  intros Hin Hbad. revert seen lines.
  induction results as [|seg results IH]; intros seen lines.
  - apply not_elem_of_nil in Hin. contradiction.
  - destruct (transcript_loop (seg :: results) seen lines) as [l|e] eqn:Hrun;
      [|eauto].
    exfalso. cbn [transcript_loop] in Hrun.
    apply elem_of_cons in Hin as [->|Hin].
    + destruct seg; try discriminate. apply Hbad. exact I.
    + destruct (py_get seg "text" (JStr "")) as [t|]; [|discriminate].
      cbn [mbind result_bind] in Hrun.
      destruct (py_strip_val t) as [text|]; [|discriminate].
      cbn [mbind result_bind] in Hrun.
      destruct (bool_decide _ && bool_decide _).
      * destruct (py_get seg "start" (JInt 0)) as [vs|]; [|discriminate].
        cbn [mbind result_bind] in Hrun.
        destruct (py_float vs) as [start|]; [|discriminate].
        cbn [mbind result_bind] in Hrun.
        destruct (py_get seg "end" (JInt 0)) as [ve|]; [|discriminate].
        cbn [mbind result_bind] in Hrun.
        destruct (py_float ve) as [end_|]; [|discriminate].
        cbn [mbind result_bind] in Hrun.
        destruct (IH Hin ({[text]} ∪ seen)
                    (lines ++ [format_line start end_ text])) as [e He].
        congruence.
      * destruct (IH Hin seen lines) as [e He]. congruence.
Qed.

(** X10.  When one of the collected records is not a JSON object, [main]
    raises in its deduplication loop, before the report file is opened: no
    report is written and the exception escapes. *)
Theorem main_raises_on_malformed_record (a : argv) (timestamp : string)
    (w : wav) (net : network) (s : session) (bad : json) :
  run_transcription a w net = Ok s ->
  bad ∈ (returned s).1.1 ->
  ~ is_record bad ->
  m_file (main a timestamp w net) = None
  /\ exists e, m_raised (main a timestamp w net) = Some e /\ transcript_exn e.
Proof.
  intros Hs Hin Hbad. rewrite (main_after_session a timestamp w net s Hs).
  destruct (transcript_loop_not_record _ ∅ [] bad Hin Hbad) as [e He].
  unfold compile_transcript. rewrite He. cbn [m_file m_raised].
  split; [reflexivity|]. exists e. split; [reflexivity|].
  eapply transcript_loop_raises, He.
Qed.


End MainRaises.

(** ** More on the deduplication *)

Section DedupFacts.
Context `{PyFloat}.

Lemma first_occurrences_keep_new ss : first_occurrences ss = keep_new ∅ ss.
Proof.
  symmetry. apply (keep_new_first_occurrences [] ∅ ss seen_of_nil).
Qed.

Lemma keep_new_elem seen ss s :
  s ∈ keep_new seen ss ->
  s ∈ ss /\ normalized_text s ≠ "" /\ normalized_text s ∉ seen.
Proof.
  revert seen. induction ss as [|x ss IH]; intros seen Hin.
  - apply not_elem_of_nil in Hin. contradiction.
  - cbn [keep_new] in Hin.
    destruct (bool_decide (normalized_text x ≠ "")) eqn:Hne;
      destruct (bool_decide (normalized_text x ∉ seen)) eqn:Hns;
      cbn [andb] in Hin.
    + apply elem_of_cons in Hin as [->|Hin].
      * apply bool_decide_eq_true_1 in Hne, Hns.
        split; [apply elem_of_cons; left; reflexivity | split; assumption].
      * destruct (IH _ Hin) as (H1 & H2 & H3).
        split; [apply elem_of_cons; right; exact H1|].
        split; [exact H2|]. intros Hs. apply H3, elem_of_union. right. exact Hs.
    + destruct (IH _ Hin) as (H1 & H2 & H3).
      split; [apply elem_of_cons; right; exact H1 | split; assumption].
    + destruct (IH _ Hin) as (H1 & H2 & H3).
      split; [apply elem_of_cons; right; exact H1 | split; assumption].
    + destruct (IH _ Hin) as (H1 & H2 & H3).
      split; [apply elem_of_cons; right; exact H1 | split; assumption].
Qed.

Lemma keep_new_NoDup seen ss : NoDup (normalized_text <$> keep_new seen ss).
Proof.
  revert seen. induction ss as [|x ss IH]; intros seen; [constructor|].
  cbn [keep_new].
  destruct (bool_decide _ && bool_decide _); [|apply IH].
  cbn [fmap list_fmap]. constructor; [|apply IH].
  intros Hin. apply list_elem_of_fmap in Hin as (s & Heq & Hs).
  apply keep_new_elem in Hs as (_ & _ & Hnot). apply Hnot.
  rewrite <- Heq. set_solver.
Qed.

Lemma keep_new_sublist seen ss : keep_new seen ss `sublist_of` ss.
Proof.
  revert seen. induction ss as [|x ss IH]; intros seen; [constructor|].
  cbn [keep_new]. destruct (bool_decide _ && bool_decide _).
  - apply sublist_skip, IH.
  - apply sublist_cons, IH.
Qed.

Lemma keep_new_cover seen ss s :
  s ∈ ss -> normalized_text s ≠ "" ->
  normalized_text s ∈ seen
  \/ normalized_text s ∈ normalized_text <$> keep_new seen ss.
Proof.
  revert seen. induction ss as [|x ss IH]; intros seen Hin Hne.
  - apply not_elem_of_nil in Hin. contradiction.
  - cbn [keep_new].
    destruct (decide (normalized_text s ∈ seen)) as [|Hns]; [left; assumption|].
    right. apply elem_of_cons in Hin as [->|Hin].
    + rewrite !bool_decide_eq_true_2 by assumption. cbn [andb fmap list_fmap].
      apply elem_of_cons. left. reflexivity.
    + destruct (bool_decide _ && bool_decide _) eqn:Hk.
      * cbn [fmap list_fmap]. apply elem_of_cons.
        destruct (IH ({[normalized_text x]} ∪ seen) Hin Hne) as [Hs|Hs].
        -- apply elem_of_union in Hs as [Hs|Hs]; [|contradiction].
           apply elem_of_singleton in Hs. left. exact Hs.
        -- right. exact Hs.
      * destruct (IH seen Hin Hne) as [Hs|Hs]; [contradiction | exact Hs].
Qed.

(** A record whose text is empty, or was seen, or is the text of an earlier
    record of the list, contributes nothing. *)
Lemma keep_new_drop seen l s c :
  normalized_text s = ""
  \/ normalized_text s ∈ seen
  \/ normalized_text s ∈ normalized_text <$> l ->
  keep_new seen (l ++ s :: c) = keep_new seen (l ++ c).
Proof.
  revert seen. induction l as [|x l IH]; intros seen Hs.
  - cbn [app keep_new].
    destruct Hs as [Hs|[Hs|Hs]].
    + rewrite (bool_decide_eq_false_2 (normalized_text s ≠ "")) by tauto.
      reflexivity.
    + rewrite (bool_decide_eq_false_2 (normalized_text s ∉ seen)) by tauto.
      rewrite andb_false_r. reflexivity.
    + apply not_elem_of_nil in Hs. contradiction.
  - cbn [app keep_new].
    destruct (bool_decide (normalized_text x ≠ "")) eqn:Hne;
      destruct (bool_decide (normalized_text x ∉ seen)) eqn:Hns;
      cbn [andb]; [f_equal|..]; apply IH;
      (destruct Hs as [Hs|[Hs|Hs]]; [left; exact Hs | set_solver |]);
      cbn [fmap list_fmap] in Hs; apply elem_of_cons in Hs as [Hs|Hs];
      try (right; right; exact Hs).
    + right. left. rewrite Hs. set_solver.
    + apply bool_decide_eq_false_1 in Hns.
      right. left. rewrite Hs. destruct (decide (normalized_text x ∈ seen));
        tauto.
    + apply bool_decide_eq_false_1 in Hne.
      left. rewrite Hs. destruct (decide (normalized_text x = "")); tauto.
    + apply bool_decide_eq_false_1 in Hne.
      left. rewrite Hs. destruct (decide (normalized_text x = "")); tauto.
Qed.

(** A list of distinct, new, non-empty texts is kept as it is. *)
Lemma keep_new_fixed seen l :
  (forall s, s ∈ l -> normalized_text s ≠ "" /\ normalized_text s ∉ seen) ->
  NoDup (normalized_text <$> l) ->
  keep_new seen l = l.
Proof.
  revert seen. induction l as [|x l IH]; intros seen Hall Hnd; [reflexivity|].
  cbn [keep_new]. destruct (Hall x) as [Hne Hns];
    [apply elem_of_cons; left; reflexivity|].
  rewrite !bool_decide_eq_true_2 by assumption. cbn [andb]. f_equal.
  cbn [fmap list_fmap] in Hnd. apply NoDup_cons in Hnd as [Hx Hnd].
  apply IH; [|exact Hnd].
  intros s Hs. destruct (Hall s) as [Hne' Hns'];
    [apply elem_of_cons; right; exact Hs|].
  split; [exact Hne'|]. intros Hin.
  apply elem_of_union in Hin as [Hin|Hin]; [|contradiction].
  apply elem_of_singleton in Hin. apply Hx. rewrite <- Hin.
  apply list_elem_of_fmap. eauto.
Qed.

(** X12.  On collected transcript segments the transcript holds every
    non-empty normalized text that was received exactly once: the records
    kept are taken from the collected ones in their order, no two of them
    have the same normalized text, none has an empty one, and every
    non-empty normalized text of a collected record is the text of a kept
    record. *)
Theorem transcript_has_each_text_once (ss : list TranscriptSegment)
    (results : list json) :
  Forall2 encodes ss results ->
  exists kept,
    compile_transcript results = Ok (map segment_line kept)
    /\ kept `sublist_of` ss
    /\ NoDup (normalized_text <$> kept)
    /\ (forall s, s ∈ kept -> normalized_text s ≠ "")
    /\ (forall s, s ∈ ss -> normalized_text s ≠ "" ->
                  normalized_text s ∈ normalized_text <$> kept).
Proof.
  intros Hf. exists (keep_new ∅ ss). split; [|split; [|split; [|split]]].
  - unfold compile_transcript.
    rewrite (transcript_loop_encoded ss results ∅ [] Hf). reflexivity.
  - apply keep_new_sublist.
  - apply keep_new_NoDup.
  - intros s Hs. apply keep_new_elem in Hs. tauto.
  - intros s Hs Hne. destruct (keep_new_cover ∅ ss s Hs Hne) as [Hin|Hin];
      [|exact Hin].
    apply not_elem_of_empty in Hin. contradiction.
Qed.

(** X13.  Deduplicating is idempotent: from the records that were kept the
    loop of [main] makes the same transcript again. *)
Theorem dedup_is_idempotent (ss : list TranscriptSegment)
    (results kept_results : list json) :
  Forall2 encodes ss results ->
  Forall2 encodes (first_occurrences ss) kept_results ->
  compile_transcript kept_results = compile_transcript results.
Proof.
  intros Hf Hk.
  rewrite (compile_transcript_encoded ss results Hf).
  rewrite (compile_transcript_encoded _ kept_results Hk).
  rewrite !first_occurrences_keep_new.
  rewrite (keep_new_fixed ∅ (keep_new ∅ ss)); [reflexivity| |].
  - intros s Hs. apply keep_new_elem in Hs. tauto.
  - apply keep_new_NoDup.
Qed.

(** X14.  A record whose normalized text is empty or is the normalized text
    of an earlier record contributes nothing, whatever its times: the
    transcript is the same without it. *)
Theorem later_duplicate_contributes_nothing
    (ss1 ss2 : list TranscriptSegment) (s : TranscriptSegment)
    (r1 r2 : list json) (j : json) :
  Forall2 encodes ss1 r1 -> encodes s j -> Forall2 encodes ss2 r2 ->
  normalized_text s = ""
  \/ (exists s', s' ∈ ss1 /\ normalized_text s' = normalized_text s) ->
  compile_transcript (r1 ++ j :: r2) = compile_transcript (r1 ++ r2).
Proof.
  intros H1 Hj H2 Hdup.
  assert (Forall2 encodes (ss1 ++ s :: ss2) (r1 ++ j :: r2)) as Hall
    by (apply Forall2_app; [exact H1 | constructor; assumption]).
  assert (Forall2 encodes (ss1 ++ ss2) (r1 ++ r2)) as Hrest
    by (apply Forall2_app; assumption).
  unfold compile_transcript.
  rewrite (transcript_loop_encoded _ _ ∅ [] Hall).
  rewrite (transcript_loop_encoded _ _ ∅ [] Hrest).
  rewrite keep_new_drop; [reflexivity|].
  destruct Hdup as [Hd|(s' & Hs' & Heq)]; [left; exact Hd|].
  right. right. rewrite <- Heq. apply list_elem_of_fmap. eauto.
Qed.

End DedupFacts.

(** ** Whitespace and missing fields *)

Lemma lstrip_chars_spaces sp l :
  Forall (fun a => py_isspace a = true) sp ->
  lstrip_chars (sp ++ l) = lstrip_chars l.
Proof.
  induction 1 as [|a sp Ha _ IH]; [reflexivity|].
  simpl. rewrite Ha. exact IH.
Qed.

Lemma rstrip_chars_spaces sp l :
  Forall (fun a => py_isspace a = true) sp ->
  rstrip_chars (l ++ sp) = rstrip_chars l.
Proof.
  intros Hsp. unfold rstrip_chars. rewrite rev_app_distr.
  rewrite lstrip_chars_spaces; [reflexivity|].
  apply Forall_forall. intros a Ha. rewrite Forall_forall in Hsp.
  apply Hsp. apply list_elem_of_In. apply list_elem_of_In, in_rev in Ha.
  exact Ha.
Qed.

Lemma strip_chars_trailing sp l :
  Forall (fun a => py_isspace a = true) sp ->
  rstrip_chars (lstrip_chars (l ++ sp)) = rstrip_chars (lstrip_chars l).
Proof.
  intros Hsp. induction l as [|a l IH].
  - simpl. rewrite <- (app_nil_r sp), lstrip_chars_spaces by exact Hsp.
    reflexivity.
  - simpl. destruct (py_isspace a); [exact IH|].
    change (a :: l ++ sp) with ((a :: l) ++ sp).
    apply rstrip_chars_spaces, Hsp.
Qed.

Lemma list_ascii_of_string_app (a b : string) :
  list_ascii_of_string (a +:+ b)
  = list_ascii_of_string a ++ list_ascii_of_string b.
Proof.
  induction a as [|x a IH]; [reflexivity|].
  change (String x a +:+ b) with (String x (a +:+ b)).
  simpl. rewrite IH. reflexivity.
Qed.

(** Whitespace around a text does not change what [strip] returns. *)
Lemma py_strip_padding (sp1 sp2 : list ascii) (s : string) :
  Forall (fun a => py_isspace a = true) sp1 ->
  Forall (fun a => py_isspace a = true) sp2 ->
  py_strip (string_of_list_ascii sp1 +:+ s +:+ string_of_list_ascii sp2)
  = py_strip s.
Proof.
  intros H1 H2. unfold py_strip.
  rewrite !list_ascii_of_string_app, !list_ascii_of_string_of_list_ascii.
  rewrite lstrip_chars_spaces by exact H1.
  rewrite strip_chars_trailing by exact H2. reflexivity.
Qed.

Section MissingFields.
Context `{PyFloat}.

(** X15.  Two records whose texts differ only in the whitespace around them
    are duplicates: the second gives no transcript line. *)
Theorem padded_text_is_a_duplicate (s1 s2 : TranscriptSegment) (j1 j2 : json)
    (sp1 sp2 : list ascii) :
  encodes s1 j1 -> encodes s2 j2 ->
  Forall (fun a => py_isspace a = true) sp1 ->
  Forall (fun a => py_isspace a = true) sp2 ->
  seg_text s2
  = string_of_list_ascii sp1 +:+ seg_text s1 +:+ string_of_list_ascii sp2 ->
  compile_transcript [j1; j2] = compile_transcript [j1].
Proof.
  intros H1 H2 Hsp1 Hsp2 Htext.
  assert (normalized_text s2 = normalized_text s1) as Heq.
  { unfold normalized_text. rewrite Htext. apply py_strip_padding; assumption. }
  assert (Forall2 encodes [s1; s2] [j1; j2]) as Hboth
    by (repeat constructor; assumption).
  assert (Forall2 encodes [s1] [j1]) as Hone
    by (repeat constructor; assumption).
  unfold compile_transcript.
  rewrite (transcript_loop_encoded _ _ ∅ [] Hboth).
  rewrite (transcript_loop_encoded _ _ ∅ [] Hone).
  rewrite (keep_new_drop ∅ [s1] s2 []); [reflexivity|].
  right. right. rewrite Heq. cbn. apply list_elem_of_singleton. reflexivity.
Qed.

(** X16.  A record with a text and neither a "start" nor an "end" field
    gets both times from the default, [float(0)]. *)
Theorem missing_times_default_to_zero (o : list (string * json))
    (t : string) (zero : float) :
  lookup_key "text" o = Some (JStr t) ->
  py_strip t ≠ "" ->
  lookup_key "start" o = None ->
  lookup_key "end" o = None ->
  float_of_int 0 = Some zero ->
  compile_transcript [JObj o] = Ok [format_line zero zero (py_strip t)].
Proof.
  intros Ht Hne Hs He Hz. unfold compile_transcript.
  cbn [transcript_loop py_get py_strip_val mbind result_bind].
  rewrite Ht, Hs, He.
  cbn [default id py_strip_val mbind result_bind].
  rewrite bool_decide_eq_true_2 by exact Hne.
  rewrite bool_decide_eq_true_2 by apply not_elem_of_empty.
  cbn [andb py_float]. rewrite Hz. reflexivity.
Qed.

Lemma py_strip_empty : py_strip "" = "".
Proof. reflexivity. Qed.

(** X17.  A record without a "text" field counts as one with an empty text:
    the collector appends it and neither counts nor prints it, and the
    deduplication passes over it without an error, whatever its other
    fields are. *)
Theorem missing_text_is_skipped (o : list (string * json))
    (st : receiver_state) (results : list json) (seen : gset string)
    (lines : list string) :
  lookup_key "text" o = None ->
  handle_segment (JObj o) st = (appended (JObj o) st, None)
  /\ transcript_loop (JObj o :: results) seen lines
     = transcript_loop results seen lines.
Proof.
  intros Ht. split.
  - unfold handle_segment. cbn [py_get mbind result_bind].
    rewrite Ht. reflexivity.
  - cbn [transcript_loop py_get mbind result_bind]. rewrite Ht. reflexivity.
Qed.

End MissingFields.

(** ** Failures of the connection and of the feeder *)

Section SessionFailures.
Context `{PyFloatLaws}.

Lemma sender_short_buffer (audio : list sample) (c : conn) :
  (0 < length audio)%nat ->
  Z.of_nat (length audio) < chunk_samples ->
  conn_open c = true ->
  sender audio c
  = {| s_events := [SendOk (PBinary audio)];
       s_chunks_sent := 1;
       s_raised := Some ZeroDivisionError |}.
Proof.
  intros Hpos Hlt Hc. unfold sender.
  rewrite (Z.div_small (Z.of_nat (length audio)) chunk_samples) by lia.
  rewrite py_range_small by lia.
  destruct (decide (Z.of_nat (length audio) = 0)); [lia|].
  cbn [sender_loop]. rewrite Hc.
  destruct (decide (0 = 0)); [|contradiction].
  cbn. rewrite py_slice_whole by exact Hlt. reflexivity.
Qed.

(** X18.  When the connection cannot be opened, or is closed before it
    accepts the configuration, no chunk is sent and nothing is collected,
    and [main] still writes the whole report, with 0 unique segments and an
    empty body; no exception escapes. *)
Theorem failed_connection_still_reports (a : argv) (timestamp : string)
    (w : wav) (net : network) :
  wav_ok w -> 0 < n_frames w ->
  connect_error net ≠ None \/ conn_open (sends net) = false ->
  exists s,
    main a timestamp w net
    = {| m_session := Some s;
         m_file := Some (results_path a timestamp,
                         report_head a (returned s).2 (returned s).1.2
                         ++ report_tail (returned s).2 (returned s).1.2 []);
         m_raised := None |}
    /\ collected s = receiver_init
    /\ frames_sent (out_events s) = []
    /\ (returned s).1.1 = [].
Proof.
  intros (Hrate & Hn & _) Hpos Hfail.
  assert (exists s, run_transcription a w net = Ok s
                    /\ collected s = receiver_init
                    /\ frames_sent (out_events s) = []
                    /\ returned s
                       = ([], fsub (end_time net) (start_time net),
                          true_div (n_frames w) (framerate w))) as (s & Hs & Hc & Hf & Hr).
  { unfold run_transcription.
    destruct (decide (framerate w = 0)); [lia|].
    destruct (connect_error net) as [e|].
    - eexists. split; [reflexivity|]. repeat split.
    - destruct Hfail as [Hfail|Hfail]; [contradiction|]. rewrite Hfail.
      eexists. split; [reflexivity|]. repeat split. }
  exists s. split; [|split; [exact Hc | split; [exact Hf|]]].
  - rewrite (main_after_session a timestamp w net s Hs), Hr.
    cbn [fst snd compile_transcript transcript_loop]. unfold write_report.
    rewrite true_div_nonzero by lia. reflexivity.
  - rewrite Hr. reflexivity.
Qed.

(** X19.  The [ZeroDivisionError] of the feeder on a buffer shorter than one
    chunk is caught by [run_transcription]: the chunk has been sent, the
    error is printed as a connection error, [receive_done] is never set,
    and [main] still writes the whole report from what was collected. *)
Theorem short_buffer_error_is_caught (a : argv) (timestamp : string)
    (w : wav) (net : network) (ss : list TranscriptSegment) :
  wav_ok w ->
  (0 < length (pcm w))%nat ->
  Z.of_nat (length (pcm w)) < chunk_samples ->
  connect_error net = None ->
  conn_open (sends net) = true ->
  conn_open (conn_next (sends net)) = true ->
  Forall2 encodes ss (results (receiver (inbox net))) ->
  exists s,
    out_events s
    = [SendOk (PText (config a)); Print (LSentConfig (config a));
       SendOk (PBinary (pcm w)); Print (LConnectionError ZeroDivisionError)]
    /\ main a timestamp w net
       = {| m_session := Some s;
            m_file :=
              Some (results_path a timestamp,
                    report_head a (returned s).2 (returned s).1.2
                    ++ report_tail (returned s).2 (returned s).1.2
                         (map segment_line (first_occurrences ss)));
            m_raised := None |}.
Proof.
  intros (Hrate & Hn & Hpcm) Hpos Hlt Hconn Hopen Hnext Hss.
  assert (0 < n_frames w) as Hframes.
  { destruct (decide (n_frames w = 0)) as [Hz|]; [|lia].
    rewrite (Hpcm Hz) in Hpos. simpl in Hpos. lia. }
  set (s := {| out_events :=
                 [SendOk (PText (config a)); Print (LSentConfig (config a));
                  SendOk (PBinary (pcm w));
                  Print (LConnectionError ZeroDivisionError)];
               collected := receiver (inbox net);
               returned := (results (receiver (inbox net)),
                            fsub (end_time net) (start_time net),
                            true_div (n_frames w) (framerate w)) |}).
  assert (run_transcription a w net = Ok s) as Hs.
  { unfold run_transcription, s.
    destruct (decide (framerate w = 0)); [lia|].
    rewrite Hconn, Hopen.
    rewrite (sender_short_buffer (pcm w) _ Hpos Hlt Hnext). reflexivity. }
  exists s. split; [reflexivity|].
  rewrite (main_after_session a timestamp w net _ Hs).
  cbn [s returned fst snd].
  rewrite (compile_transcript_encoded ss _ Hss).
  unfold write_report. rewrite true_div_nonzero by lia. reflexivity.
Qed.

End SessionFailures.

(** ** The count of the collector *)

Lemma count_changes_app last a b :
  count_changes last (a ++ b)
  = count_changes last a + count_changes (last_change last a) b.
Proof.
  revert last. induction a as [|t a IH]; intros last; simpl; [lia|].
  destruct (bool_decide _ && bool_decide _); rewrite IH; lia.
Qed.

Lemma last_change_app last a b :
  last_change last (a ++ b) = last_change (last_change last a) b.
Proof.
  revert last. induction a as [|t a IH]; intros last; simpl; [reflexivity|].
  destruct (bool_decide _ && bool_decide _); apply IH.
Qed.

Section CollectorCount.
Context `{PyFloat}.

Lemma tracks_nil st st' :
  segment_count st' = segment_count st -> last_text st' = last_text st ->
  tracks st st' [].
Proof. intros Hc Hl. split; simpl; [lia | exact Hl]. Qed.

Lemma tracks_app st st1 st2 ss1 ss2 :
  tracks st st1 ss1 -> tracks st1 st2 ss2 -> tracks st st2 (ss1 ++ ss2).
Proof.
  intros [Hc1 Hl1] [Hc2 Hl2]. split.
  - rewrite fmap_app, count_changes_app, <- Hl1. lia.
  - rewrite fmap_app, last_change_app, <- Hl1. exact Hl2.
Qed.

Lemma handle_segment_tracks s j st :
  encodes s j ->
  exists st', handle_segment j st = (st', None)
              /\ results st' = results st ++ [j]
              /\ tracks st st' [s].
Proof.
  intros Hj. unfold handle_segment. rewrite (encodes_text s j Hj).
  cbn [results last_text segment_count]. unfold tracks.
  cbn [fmap list_fmap count_changes last_change].
  destruct (bool_decide _ && bool_decide _); eexists;
    (split; [reflexivity|]); (split; [reflexivity|]);
    cbn [segment_count last_text]; split; (lia || reflexivity).
Qed.

(** Only what was appended: [new] is determined by the two lists. *)
Lemma appended_inv {A} (l new new' : list A) :
  l ++ new = l ++ new' -> new = new'.
Proof. apply app_inv_head. Qed.

Lemma handle_segments_tracks js st ss new :
  results (handle_segments js st).1 = results st ++ new ->
  Forall2 encodes ss new ->
  tracks st (handle_segments js st).1 ss.
Proof.
  revert st ss new. induction js as [|j js IH]; intros st ss new Hres Hss.
  - cbn [handle_segments fst] in *.
    assert (new = []) as ->
      by (apply (appended_inv (results st)); rewrite app_nil_r; auto).
    apply Forall2_nil_inv_r in Hss as ->. apply tracks_nil; reflexivity.
  - cbn [handle_segments] in *.
    pose proof (handle_segment_appends j st) as Happ.
    destruct (handle_segment j st) as [st1 oe] eqn:Hstep. cbn [fst] in Happ.
    assert (exists more, new = j :: more
                         /\ results (match oe with
                                     | None => handle_segments js st1
                                     | Some e => (st1, Some e)
                                     end).1 = results st1 ++ more)
      as (more & -> & Hmore).
    { destruct oe as [e|]; cbn [fst] in *.
      - exists []. rewrite app_nil_r. split; [|reflexivity].
        apply (appended_inv (results st)). congruence.
      - destruct (handle_segments_prefix js st1) as [[more Hm] _].
        exists more. split; [|exact Hm].
        apply (appended_inv (results st)).
        rewrite <- Hres, Hm, Happ, <- app_assoc. reflexivity. }
    apply Forall2_cons_inv_r in Hss as (s & ss' & Hj & Hss' & ->).
    destruct (handle_segment_tracks s j st Hj) as (st1' & Hok & _ & Ht).
    rewrite Hstep in Hok. injection Hok as <- ->.
    change (s :: ss') with ([s] ++ ss').
    eapply tracks_app; [exact Ht|]. eapply IH; [exact Hmore | exact Hss'].
Qed.

Lemma handle_data_tracks data st ss new :
  results (handle_data data st).1 = results st ++ new ->
  Forall2 encodes ss new ->
  tracks st (handle_data data st).1 ss.
Proof.
  assert (forall st', results st' = results st ->
                      segment_count st' = segment_count st ->
                      last_text st' = last_text st ->
                      results st' = results st ++ new ->
                      Forall2 encodes ss new -> tracks st st' ss) as Hsame.
  { intros st' Hr Hc Hl Hres Hss.
    assert (new = []) as ->
      by (apply (appended_inv (results st)); rewrite app_nil_r; congruence).
    apply Forall2_nil_inv_r in Hss as ->. apply tracks_nil; assumption. }
  unfold handle_data.
  destruct (py_in "segments" data) as [[|]|]; [| |by apply Hsame].
  - destruct (v ← py_getitem data "segments"; py_iter v);
      [apply handle_segments_tracks | by apply Hsame].
  - destruct (py_in "message" data) as [[|]|]; [| by apply Hsame..].
    destruct (m ← py_getitem data "message"; low ← py_lower_val m;
              mret (m, py_contains_str "error" low)) as [[m b]|];
      [|by apply Hsame].
    destruct m, b; by apply Hsame.
Qed.

Lemma receiver_loop_tracks inbox st ss new :
  results (receiver_loop inbox st) = results st ++ new ->
  Forall2 encodes ss new ->
  tracks st (receiver_loop inbox st) ss.
Proof.
  revert st ss new. induction inbox as [|r inbox IH]; intros st ss new Hres Hss.
  - cbn [receiver_loop] in *.
    assert (new = []) as ->
      by (apply (appended_inv (results st)); rewrite app_nil_r; auto).
    apply Forall2_nil_inv_r in Hss as ->. apply tracks_nil; reflexivity.
  - destruct r as [| |[data|e]]; cbn [receiver_loop] in *.
    + eapply IH; eassumption.
    + assert (new = []) as ->
        by (apply (appended_inv (results st)); rewrite app_nil_r; auto).
      apply Forall2_nil_inv_r in Hss as ->. apply tracks_nil; reflexivity.
    + pose proof (handle_data_tracks data st) as Hd.
      destruct (handle_data_prefix data st) as [[new1 Hn1] _].
      destruct (handle_data data st) as [st1 [e|]]; cbn [fst] in *.
      * destruct (Hd ss new Hres Hss) as [Hc Hl]. split; assumption.
      * destruct (receiver_loop_invariants inbox st1) as [[new2 Hn2] _].
        assert (new = new1 ++ new2) as ->.
        { apply (appended_inv (results st)).
          rewrite <- Hres, Hn2, Hn1, <- app_assoc. reflexivity. }
        apply Forall2_app_inv_r in Hss as (ss1 & ss2 & H1 & H2 & ->).
        eapply tracks_app.
        -- eapply Hd; [exact Hn1 | exact H1].
        -- eapply IH; [exact Hn2 | exact H2].
    + assert (new = []) as ->
        by (apply (appended_inv (results st)); rewrite app_nil_r; auto).
      apply Forall2_nil_inv_r in Hss as ->. apply tracks_nil; reflexivity.
Qed.

(** Every first occurrence is a change. *)
Lemma keep_new_le_changes seen last ss :
  (last ≠ "" -> last ∈ seen) ->
  Z.of_nat (length (keep_new seen ss))
  <= count_changes last (normalized_text <$> ss).
Proof.
  revert seen last. induction ss as [|s ss IH]; intros seen last Hlast.
  - simpl. lia.
  - cbn [keep_new fmap list_fmap count_changes].
    destruct (bool_decide (normalized_text s ≠ "")) eqn:Hne; cbn [andb].
    2:{ apply IH, Hlast. }
    apply bool_decide_eq_true_1 in Hne.
    destruct (bool_decide (normalized_text s ∉ seen)) eqn:Hns.
    + apply bool_decide_eq_true_1 in Hns.
      rewrite (bool_decide_eq_true_2 (normalized_text s ≠ last)).
      2:{ intros Heq. apply Hns. rewrite Heq. apply Hlast.
          rewrite <- Heq. exact Hne. }
      cbn [length].
      specialize (IH ({[normalized_text s]} ∪ seen) (normalized_text s)).
      assert (Z.of_nat (length (keep_new ({[normalized_text s]} ∪ seen) ss))
              <= count_changes (normalized_text s) (normalized_text <$> ss))
        by (apply IH; intros _; apply elem_of_union; left;
            apply elem_of_singleton; reflexivity).
      lia.
    + apply bool_decide_eq_false_1 in Hns.
      assert (normalized_text s ∈ seen) as Hin
        by (destruct (decide (normalized_text s ∈ seen)); tauto).
      destruct (bool_decide (normalized_text s ≠ last)).
      * specialize (IH seen (normalized_text s) (fun _ => Hin)). lia.
      * apply IH, Hlast.
Qed.

(** X20.  When every collected record is a transcript segment, the count of
    the collector is the number of non-empty texts that differ from the
    non-empty text received before them, and it is never below the number
    of unique segments of the report. *)
Theorem collector_count_bounds_unique_count (inbox : list recv_outcome)
    (ss : list TranscriptSegment) :
  Forall2 encodes ss (results (receiver inbox)) ->
  segment_count (receiver inbox)
  = count_changes "" (normalized_text <$> ss)
  /\ Z.of_nat (length (first_occurrences ss))
     <= segment_count (receiver inbox).
Proof.
  intros Hss.
  destruct (receiver_loop_tracks inbox receiver_init ss
              (results (receiver inbox)) eq_refl Hss) as [Hc _].
  cbn [receiver_init segment_count last_text] in Hc.
  assert (segment_count (receiver inbox)
          = count_changes "" (normalized_text <$> ss)) as Hcount
    by (unfold receiver; lia).
  split; [exact Hcount|].
  rewrite Hcount, first_occurrences_keep_new.
  apply keep_new_le_changes. intros Hne. contradiction.
Qed.

End CollectorCount.

(** * Concrete runs of the further properties *)

Section FurtherRuns.
Import Exact Runs.

(** X8, witness. *)
Lemma receiver_error_check_ignores_case_witness :
  receiver_loop
    [RecvMsg (Ok (JObj [("message",
                         JStr ("Internal " +:+ "ERROR" +:+ ": x"))]));
     RecvClosed] receiver_init
  = receiver_loop [RecvClosed]
      (r_print (LServerError ("Internal " +:+ "ERROR" +:+ ": x"))
         receiver_init).
Proof.
  apply (receiver_error_check_ignores_case
           [("message", JStr ("Internal " +:+ "ERROR" +:+ ": x"))]
           receiver_init [RecvClosed] "Internal " "ERROR" ": x");
    reflexivity.
Defined.

(** X9, witness. *)
Lemma receiver_keeps_the_malformed_segment_witness :
  exists st',
    receiver_loop
      [RecvMsg (Ok (JObj [("segments",
                           JArr (map to_json [hello]
                                 ++ JInt 7 :: map to_json [bye]))]));
       RecvMsg (Ok (batch [bye]))] receiver_init
    = r_print (LReceiverError AttributeError) st'
    /\ results st'
       = results receiver_init ++ map to_json [hello] ++ [JInt 7].
Proof.
  apply (receiver_keeps_the_malformed_segment
           [("segments",
             JArr (map to_json [hello] ++ JInt 7 :: map to_json [bye]))]
           receiver_init [RecvMsg (Ok (batch [bye]))] [hello]
           (map to_json [hello]) (map to_json [bye]) (JInt 7)).
  - reflexivity.
  - apply encodes_map_to_json.
  - intros [].
Defined.

(** X10, witness. *)
Lemma main_raises_on_malformed_record_witness :
  m_file (main args "20260101-000000" quarter_second careless_server) = None
  /\ exists e,
      m_raised (main args "20260101-000000" quarter_second careless_server)
      = Some e
      /\ transcript_exn e.
Proof.
  eapply (main_raises_on_malformed_record args "20260101-000000"
            quarter_second careless_server _ (JInt 7)).
  - reflexivity.
  - cbn. apply list_elem_of_further, list_elem_of_here.
  - intros [].
Defined.


(** X12, witness. *)
Lemma transcript_has_each_text_once_witness :
  exists kept,
    compile_transcript (map to_json [hello; hello_again; blank; bye])
    = Ok (map segment_line kept)
    /\ kept `sublist_of` [hello; hello_again; blank; bye]
    /\ NoDup (normalized_text <$> kept)
    /\ (forall s, s ∈ kept -> normalized_text s ≠ "")
    /\ (forall s, s ∈ [hello; hello_again; blank; bye] ->
                  normalized_text s ≠ "" ->
                  normalized_text s ∈ normalized_text <$> kept).
Proof.
  apply (transcript_has_each_text_once [hello; hello_again; blank; bye]).
  apply encodes_map_to_json.
Defined.

(** X13, witness. *)
Lemma dedup_is_idempotent_witness :
  compile_transcript
    (map to_json (first_occurrences [hello; hello_again; blank; bye]))
  = compile_transcript (map to_json [hello; hello_again; blank; bye]).
Proof.
  apply (dedup_is_idempotent [hello; hello_again; blank; bye]);
    apply encodes_map_to_json.
Defined.

(** X14, witness. *)
Lemma later_duplicate_contributes_nothing_witness :
  compile_transcript
    (map to_json [hello] ++ to_json hello_again :: map to_json [bye])
  = compile_transcript (map to_json [hello] ++ map to_json [bye]).
Proof.
  apply (later_duplicate_contributes_nothing [hello] [bye] hello_again).
  - apply encodes_map_to_json.
  - apply encodes_to_json.
  - apply encodes_map_to_json.
  - right. exists hello. split; [apply list_elem_of_here | reflexivity].
Defined.

(** X15, witness. *)
Lemma padded_text_is_a_duplicate_witness :
  compile_transcript [to_json hello; to_json hello_again]
  = compile_transcript [to_json hello].
Proof.
  apply (padded_text_is_a_duplicate hello hello_again _ _
           [" "%char] [" "%char]).
  - apply encodes_to_json.
  - apply encodes_to_json.
  - repeat constructor.
  - repeat constructor.
  - reflexivity.
Defined.

(** X16, witness. *)
Lemma missing_times_default_to_zero_witness :
  compile_transcript [JObj [("text", JStr " hi ")]]
  = Ok [format_line (ratio 0 1) (ratio 0 1) (py_strip " hi ")].
Proof.
  apply (missing_times_default_to_zero [("text", JStr " hi ")] " hi "
           (ratio 0 1)).
  - reflexivity.
  - intros Hempty. vm_compute in Hempty. discriminate.
  - reflexivity.
  - reflexivity.
  - reflexivity.
Defined.

(** X17, witness. *)
Lemma missing_text_is_skipped_witness :
  handle_segment (JObj [("start", JInt 1)]) receiver_init
  = (appended (JObj [("start", JInt 1)]) receiver_init, None)
  /\ transcript_loop (JObj [("start", JInt 1)] :: map to_json [bye]) ∅ []
     = transcript_loop (map to_json [bye]) ∅ [].
Proof.
  apply (missing_text_is_skipped [("start", JInt 1)]). reflexivity.
Defined.

(** X18, witness. *)
Lemma failed_connection_still_reports_witness :
  exists s,
    main args "20260101-000000" quarter_second refusing_server
    = {| m_session := Some s;
         m_file := Some (results_path args "20260101-000000",
                         report_head args (returned s).2 (returned s).1.2
                         ++ report_tail (returned s).2 (returned s).1.2 []);
         m_raised := None |}
    /\ collected s = receiver_init
    /\ frames_sent (out_events s) = []
    /\ (returned s).1.1 = [].
Proof.
  apply (failed_connection_still_reports args "20260101-000000"
           quarter_second refusing_server).
  - unfold wav_ok. simpl. split; [lia|]. split; [lia|]. intros; lia.
  - simpl. lia.
  - left. discriminate.
Defined.

(** X19, witness. *)
Lemma short_buffer_error_is_caught_witness :
  exists s,
    out_events s
    = [SendOk (PText (config args)); Print (LSentConfig (config args));
       SendOk (PBinary (pcm short_clip));
       Print (LConnectionError ZeroDivisionError)]
    /\ main args "20260101-000000" short_clip (talking_server None)
       = {| m_session := Some s;
            m_file :=
              Some (results_path args "20260101-000000",
                    report_head args (returned s).2 (returned s).1.2
                    ++ report_tail (returned s).2 (returned s).1.2
                         (map segment_line
                            (first_occurrences
                               [hello; hello_again; blank; bye])));
            m_raised := None |}.
Proof.
  apply (short_buffer_error_is_caught args "20260101-000000" short_clip
           (talking_server None) [hello; hello_again; blank; bye]).
  - unfold wav_ok. simpl. split; [lia|]. split; [lia|]. intros; lia.
  - unfold short_clip. cbn [pcm]. rewrite length_replicate. lia.
  - unfold short_clip. cbn [pcm].
    rewrite length_replicate, chunk_samples_eq. lia.
  - reflexivity.
  - reflexivity.
  - reflexivity.
  - change (results (receiver (inbox (talking_server None))))
      with (map to_json [hello; hello_again; blank; bye]).
    apply encodes_map_to_json.
Defined.

(** X20, witness. *)
Lemma collector_count_bounds_unique_count_witness :
  segment_count (receiver (inbox (talking_server None)))
  = count_changes ""
      (normalized_text <$> [hello; hello_again; blank; bye])
  /\ Z.of_nat (length (first_occurrences [hello; hello_again; blank; bye]))
     <= segment_count (receiver (inbox (talking_server None))).
Proof.
  apply (collector_count_bounds_unique_count (inbox (talking_server None))
           [hello; hello_again; blank; bye]).
  change (results (receiver (inbox (talking_server None))))
    with (map to_json [hello; hello_again; blank; bye]).
  apply encodes_map_to_json.
Defined.

End FurtherRuns.
